(** * scraper_annotated.py: crawl, parse and clean a paginated company table

    A shallow embedding of [src/scraper_annotated.py] and the properties its
    specification states about it.

    Modelling conventions.
    - A Python [str] is a [string]; the embedding is exact for the 7-bit
      repertoire.  Characters above 127 are carried along as symbols that are
      neither letters, digits nor white space.
    - A pandas cell is a [cell]: a text, an integer or the missing value.  A
      frame is the list of its rows.
    - An exception is a value [Raise e] of the [result] type; statements run in
      source order, so the first failing statement decides the exception.
    - BeautifulSoup is used as a capability: a document is the tree it builds,
      and [find], [find_all] and [get_text] are functions on that tree.
    - The file system is a finite map from resolved paths to what is stored
      there; resolving a link against a page is a parameter of the site. *)

From Stdlib Require Import ZArith Ascii String List Lia Bool.
From stdpp Require Import base tactics option list gmap strings pretty.

Open Scope string_scope.
Open Scope list_scope.
Set Warnings "-register-all".

(** ** Python text primitives *)

Definition code (c : ascii) : N := N_of_ascii c.

Definition between (lo hi : N) (c : ascii) : bool :=
  ((lo <=? code c) && (code c <=? hi))%N.

(** [str.isspace] on one character: TAB..CR, FS..US and the blank. *)
Definition isspace (c : ascii) : bool :=
  between 9 13 c || between 28 32 c.

(** The class [\d] of the [re] module. *)
Definition isdigit (c : ascii) : bool := between 48 57 c.

Definition isupper (c : ascii) : bool := between 65 90 c.
Definition islower (c : ascii) : bool := between 97 122 c.
Definition iscased (c : ascii) : bool := isupper c || islower c.

Definition tolower (c : ascii) : ascii :=
  if isupper c then ascii_of_N (code c + 32) else c.
Definition toupper (c : ascii) : ascii :=
  if islower c then ascii_of_N (code c - 32) else c.

Fixpoint map_string (f : ascii -> ascii) (s : string) : string :=
  match s with
  | EmptyString => EmptyString
  | String c t => String (f c) (map_string f t)
  end.

Fixpoint filter_string (keep : ascii -> bool) (s : string) : string :=
  match s with
  | EmptyString => EmptyString
  | String c t =>
      if keep c then String c (filter_string keep t) else filter_string keep t
  end.

Fixpoint forallb_string (p : ascii -> bool) (s : string) : bool :=
  match s with
  | EmptyString => true
  | String c t => p c && forallb_string p t
  end.

(** [str.lower]. *)
Definition str_lower (s : string) : string := map_string tolower s.

(** [str.title]: a character that follows a cased one is lowered, any other
    one is raised (CPython's [do_title]). *)
Fixpoint title_from (previous_is_cased : bool) (s : string) : string :=
  match s with
  | EmptyString => EmptyString
  | String c t =>
      String (if previous_is_cased then tolower c else toupper c)
             (title_from (iscased c) t)
  end.

Definition str_title (s : string) : string := title_from false s.

Fixpoint str_lstrip (s : string) : string :=
  match s with
  | EmptyString => EmptyString
  | String c t => if isspace c then str_lstrip t else s
  end.

Fixpoint str_rstrip (s : string) : string :=
  match s with
  | EmptyString => EmptyString
  | String c t =>
      match str_rstrip t with
      | EmptyString => if isspace c then EmptyString else String c EmptyString
      | t' => String c t'
      end
  end.

(** [str.strip] without argument. *)
Definition str_strip (s : string) : string := str_rstrip (str_lstrip s).

(** [str.startswith] for a one-character prefix. *)
Definition startswith (c : ascii) (s : string) : bool :=
  match s with
  | String d _ => bool_decide (d = c)
  | EmptyString => false
  end.

(** ** Cleaning helpers *)

Definition missing_sentinels : list string := ["n/a"; "na"; "none"].

(** The test of line 84: [not raw or raw.strip().lower() in {...}]. *)
Definition is_missing (raw : string) : bool :=
  bool_decide (raw = "")
  || bool_decide (str_lower (str_strip raw) ∈ missing_sentinels).

(** The character class [[^\d+]] removed by [re.sub] keeps exactly these. *)
Definition digit_or_plus (c : ascii) : bool :=
  isdigit c || bool_decide (c = "+"%char).

(** [re.sub(r"[^\d+]", "", raw)]. *)
Definition strip_non_digits (raw : string) : string :=
  filter_string digit_or_plus raw.

(** Lines 91-99: what is done with the stripped text. *)
Definition infer_us_prefix (digits : string) : string :=
  if negb (bool_decide (digits = "")) && negb (startswith "+" digits) then
    if bool_decide (String.length digits = 11) && startswith "1" digits then
      "+" +:+ digits
    else if bool_decide (String.length digits = 10) then
      "+1" +:+ digits
    else digits
  else digits.

Definition normalize_phone (raw : string) : string :=
  if is_missing raw then ""
  else infer_us_prefix (strip_non_digits raw).

Definition country_mapping : list (string * string) :=
  [ ("usa", "United States");
    ("united states", "United States");
    ("canada", "Canada");
    ("uk", "United Kingdom");
    ("united kingdom", "United Kingdom");
    ("mexico", "Mexico") ].

(** Lookup in a dict literal written as its list of items (keys distinct). *)
Fixpoint dict_get (key : string) (items : list (string * string)) : option string :=
  match items with
  | [] => None
  | (k, v) :: rest => if bool_decide (k = key) then Some v else dict_get key rest
  end.

Definition normalize_country (raw : string) : string :=
  if bool_decide (raw = "") then ""
  else
    let s := str_strip raw in
    let key := str_lower s in
    match dict_get key country_mapping with
    | Some label => label
    | None => str_title s
    end.

(** ** Exceptions *)

Inductive exn := TypeError | AttributeError | OSError.

Inductive result (A : Type) : Type :=
  | Ok (a : A)
  | Raise (e : exn).
Arguments Ok {A} a.
Arguments Raise {A} e.

#[global] Instance result_ret : MRet result := fun A a => Ok a.
#[global] Instance result_bind : MBind result := fun A B k m =>
  match m with
  | Ok a => k a
  | Raise e => Raise e
  end.

(** ** pandas cells and frames *)

Inductive cell :=
  | Str (s : string)
  | Int (z : Z)
  | NA.

#[global] Instance cell_eq_dec : EqDecision cell.
Proof. solve_decision. Defined.

#[global] Instance cell_countable : Countable cell.
Proof.
  refine (inj_countable'
    (fun c => match c with
              | Str s => inl s
              | Int z => inr (Some z)
              | NA => inr None
              end)
    (fun x => match x with
              | inl s => Str s
              | inr (Some z) => Int z
              | inr None => NA
              end) _).
  intros []; reflexivity.
Defined.

Record Row := mkRow {
  CompanyID : cell;
  CompanyName : cell;
  Category : cell;
  Email : cell;
  Phone : cell;
  Country : cell
}.

#[global] Instance Row_eq_dec : EqDecision Row.
Proof. solve_decision. Defined.

Abbreviation Frame := (list Row).

Definition set_CompanyID (v : cell) (r : Row) : Row :=
  mkRow v (CompanyName r) (Category r) (Email r) (Phone r) (Country r).
Definition set_CompanyName (v : cell) (r : Row) : Row :=
  mkRow (CompanyID r) v (Category r) (Email r) (Phone r) (Country r).
Definition set_Category (v : cell) (r : Row) : Row :=
  mkRow (CompanyID r) (CompanyName r) v (Email r) (Phone r) (Country r).
Definition set_Email (v : cell) (r : Row) : Row :=
  mkRow (CompanyID r) (CompanyName r) (Category r) v (Phone r) (Country r).
Definition set_Phone (v : cell) (r : Row) : Row :=
  mkRow (CompanyID r) (CompanyName r) (Category r) (Email r) v (Country r).
Definition set_Country (v : cell) (r : Row) : Row :=
  mkRow (CompanyID r) (CompanyName r) (Category r) (Email r) (Phone r) v.

(** [df[name]] and [df[name] = series]. *)
Definition column (get : Row -> cell) (df : Frame) : list cell := map get df.
Definition assign (set : cell -> Row -> Row) (series : list cell) (df : Frame) : Frame :=
  zip_with set series df.

(** A column operation that works cell by cell and may raise
    ([series.apply(f)], a cast): cells are visited in order and the first
    exception ends the call. *)
Fixpoint series_apply (f : cell -> result cell) (series : list cell) : result (list cell) :=
  match series with
  | [] => Ok []
  | c :: rest =>
      v ← f c;
      vs ← series_apply f rest;
      Ok (v :: vs)
  end.

(** [astype(str)] on the cells of an object or [Int64] column: texts stay,
    integers are printed, and the missing value is printed as its [repr]
    (it does not stay missing). *)
Definition astype_str (c : cell) : string :=
  match c with
  | Str s => s
  | Int z => pretty z
  | NA => "<NA>"
  end.

(** [replace({"": pd.NA})]. *)
Definition replace_empty (s : string) : cell :=
  if bool_decide (s = "") then NA else Str s.

(** *** [pd.to_numeric(..., errors="coerce")]

    The value read from one cell.  A finite value is kept as the exact decimal
    [mantissa * 10 ^ exponent]; rounding to binary64, overflow and underflow
    are outside the embedding. *)
Inductive float64 :=
  | Finite (mantissa exponent : Z)
  | Infinite
  | NaN.

Definition isspace_ascii (c : ascii) : bool :=
  between 9 13 c || between 32 32 c.

Fixpoint skip (p : ascii -> bool) (s : string) : string :=
  match s with
  | EmptyString => EmptyString
  | String c t => if p c then skip p t else s
  end.

Fixpoint span (p : ascii -> bool) (s : string) : string * string :=
  match s with
  | EmptyString => (EmptyString, EmptyString)
  | String c t =>
      if p c then let '(a, b) := span p t in (String c a, b)
      else (EmptyString, s)
  end.

Fixpoint digits_value (acc : Z) (ds : string) : Z :=
  match ds with
  | EmptyString => acc
  | String c t => digits_value (10 * acc + Z.of_N (code c - 48)) t
  end.

Definition take_sign (s : string) : bool * string :=
  match s with
  | String c t =>
      if bool_decide (c = "-"%char) then (true, t)
      else if bool_decide (c = "+"%char) then (false, t)
      else (false, s)
  | EmptyString => (false, s)
  end.

Definition signed (negative : bool) (z : Z) : Z := if negative then (- z)%Z else z.

(** The literal grammar of the tokenizer's [precise_xstrtod]: blanks, a sign,
    digits with an optional fraction, an optional exponent, blanks. *)
Definition xstrtod (s : string) : option (Z * Z) :=
  let s := skip isspace_ascii s in
  let '(negative, s) := take_sign s in
  let '(int_part, s) := span isdigit s in
  let '(frac_part, s) :=
    match s with
    | String c t => if bool_decide (c = "."%char) then span isdigit t else (EmptyString, s)
    | EmptyString => (EmptyString, s)
    end in
  if bool_decide (int_part +:+ frac_part = "") then None
  else
    let number := signed negative (digits_value 0 (int_part +:+ frac_part)) in
    let '(exponent, s) :=
      match s with
      | String c t =>
          if bool_decide (tolower c = "e"%char) then
            let '(eneg, t) := take_sign t in
            let '(edigits, t) := span isdigit t in
            if bool_decide (edigits = "") then (0%Z, s)
            else (signed eneg (digits_value 0 edigits), t)
          else (0%Z, s)
      | EmptyString => (0%Z, s)
      end in
    let s := skip isspace_ascii s in
    if bool_decide (s = "") then
      Some (number, (exponent - Z.of_nat (String.length frac_part))%Z)
    else None.

Definition infinity_words : list string :=
  ["inf"; "+inf"; "-inf"; "infinity"; "+infinity"; "-infinity"].

(** One cell of [pd.to_numeric(series, errors="coerce")]. *)
Definition to_numeric (c : cell) : float64 :=
  match c with
  | Int z => Finite z 0
  | NA => NaN
  | Str s =>
      match xstrtod s with
      | Some (m, e) => Finite m e
      | None =>
          if bool_decide (str_lower s ∈ infinity_words) then Infinite else NaN
      end
  end.

Definition integral_value (m e : Z) : option Z :=
  if (0 <=? e)%Z then Some (m * 10 ^ e)%Z
  else
    let d := (10 ^ (- e))%Z in
    if (m mod d =? 0)%Z then Some (m / d)%Z else None.

Definition in_int64 (z : Z) : bool :=
  ((- 2 ^ 63 <=? z) && (z <? 2 ^ 63))%Z.

(** One cell of [.astype("Int64")]: the missing value stays missing, a value
    that is a whole number in range becomes that integer, and any other value
    makes the cast raise ("cannot safely cast non-equivalent float64"). *)
Definition astype_Int64 (x : float64) : result cell :=
  match x with
  | NaN => Ok NA
  | Infinite => Raise TypeError
  | Finite m e =>
      match integral_value m e with
      | Some v => if in_int64 v then Ok (Int v) else Raise TypeError
      | None => Raise TypeError
      end
  end.

(** [df["Country"].apply(normalize_country)]: [not raw] is asked of the cell
    whatever its type. *)
Definition apply_normalize_country (c : cell) : result cell :=
  match c with
  | Str s => Ok (Str (normalize_country s))
  | Int z => if bool_decide (z = 0%Z) then Ok (Str "") else Raise AttributeError
  | NA => Raise TypeError
  end.

(** *** [drop_duplicates(subset=["CompanyID", "Email"], keep="first")] *)

Definition subset_key (r : Row) : cell * cell := (CompanyID r, Email r).

(** [duplicated(keep="first")]: one pass with the table of keys met so far;
    a row is flagged when its key is already in the table.  Missing values
    are keys like any other, so two missing values meet. *)
Fixpoint duplicated_from (seen : gset (cell * cell)) (keys : list (cell * cell)) : list bool :=
  match keys with
  | [] => []
  | k :: rest => bool_decide (k ∈ seen) :: duplicated_from ({[k]} ∪ seen) rest
  end.

Definition duplicated (df : Frame) : list bool :=
  duplicated_from ∅ (map subset_key df).

(** Boolean indexing [df[mask]]. *)
Fixpoint select (mask : list bool) (df : Frame) : Frame :=
  match mask, df with
  | b :: mask', r :: df' => if b then r :: select mask' df' else select mask' df'
  | _, _ => []
  end.

Definition drop_duplicates (df : Frame) : Frame :=
  select (map negb (duplicated df)) df.

(** ** Cleaning / standardization pipeline *)

Definition clean_text (c : cell) : cell :=
  Str (str_title (str_strip (astype_str c))).

Definition clean_email (c : cell) : cell :=
  replace_empty (str_lower (str_strip (astype_str c))).

Definition clean_phone (c : cell) : cell :=
  replace_empty (normalize_phone (astype_str c)).

(** Lines 254-278: the five column statements, in source order. *)
Definition standardize_fields (df : Frame) : result Frame :=
  ids ← series_apply (fun c => astype_Int64 (to_numeric c)) (column CompanyID df);
  let df := assign set_CompanyID ids df in
  let df := assign set_CompanyName (map clean_text (column CompanyName df)) df in
  let df := assign set_Category (map clean_text (column Category df)) df in
  let df := assign set_Email (map clean_email (column Email df)) df in
  let df := assign set_Phone (map clean_phone (column Phone df)) df in
  countries ← series_apply apply_normalize_country (column Country df);
  Ok (assign set_Country countries df).

Definition clean_dataframe (df : Frame) : result Frame :=
  df ← standardize_fields df;
  Ok (drop_duplicates df).

(** ** Raw records and the frame built from them *)

Module Raw.
(** The dict appended for one table row (lines 175-184). *)
Record t := mk {
  CompanyID : string;
  CompanyName : string;
  Category : string;
  Email : string;
  Phone : string;
  Country : string
}.
End Raw.

(** [pd.DataFrame(all_rows, columns=[...])]. *)
Definition DataFrame (all_rows : list Raw.t) : Frame :=
  map (fun d => mkRow (Str (Raw.CompanyID d)) (Str (Raw.CompanyName d))
                      (Str (Raw.Category d)) (Str (Raw.Email d))
                      (Str (Raw.Phone d)) (Str (Raw.Country d))) all_rows.

(** ** HTML parsing helpers *)

(** The tree BeautifulSoup builds: texts and tags with their attribute dict
    (as its list of items) and their contents.  The soup itself is the tag
    that holds the top-level nodes. *)
Inductive node :=
  | NavigableString (s : string)
  | Tag (name : string) (attrs : list (string * string)) (contents : list node).

(** [tag.descendants]: every node below, in document order. *)
Fixpoint descendants (n : node) : list node :=
  match n with
  | NavigableString _ => []
  | Tag _ _ contents =>
      (fix below (cs : list node) : list node :=
         match cs with
         | [] => []
         | c :: cs' => c :: descendants c ++ below cs'
         end) contents
  end.

Definition tag_attrs (n : node) : list (string * string) :=
  match n with
  | NavigableString _ => []
  | Tag _ attrs _ => attrs
  end.

Definition is_tag (name : string) (id : option string) (n : node) : bool :=
  match n with
  | NavigableString _ => false
  | Tag nm attrs _ =>
      bool_decide (nm = name)
      && match id with
         | None => true
         | Some v => bool_decide (dict_get "id" attrs = Some v)
         end
  end.

(** [tag.find_all(name, id=...)] and [tag.find(name, id=...)]. *)
Definition find_all (name : string) (id : option string) (n : node) : list node :=
  List.filter (is_tag name id) (descendants n).

Definition find (name : string) (id : option string) (n : node) : option node :=
  head (find_all name id n).

(** The texts below a node, in document order. *)
Fixpoint all_strings (n : node) : list string :=
  match n with
  | NavigableString s => [s]
  | Tag _ _ contents =>
      (fix below (cs : list node) : list string :=
         match cs with
         | [] => []
         | c :: cs' => all_strings c ++ below cs'
         end) contents
  end.

(** [tag.get_text(strip=True)]: each text is stripped, empty ones are left
    out, the rest is joined. *)
Definition get_text (n : node) : string :=
  String.concat ""
    (List.filter (fun t => negb (bool_decide (t = ""))) (map str_strip (all_strings n))).

(** Lines 167-184: the loop over the body rows, [rows] being the list that
    is appended to. *)
Fixpoint extract_rows (trs : list node) (rows : list Raw.t) : list Raw.t :=
  match trs with
  | [] => rows
  | tr :: rest =>
      let cols := map get_text (find_all "td" None tr) in
      if bool_decide (length cols ≠ 6) then extract_rows rest rows
      else
        extract_rows rest
          (rows ++ [Raw.mk (nth 0 cols "") (nth 1 cols "") (nth 2 cols "")
                           (nth 3 cols "") (nth 4 cols "") (nth 5 cols "")])
  end.

Definition parse_company_table (soup : node) : list Raw.t * option string :=
  match find "table" (Some "company-table") soup with
  | None => ([], None)
  | Some table =>
      match find "tbody" None table with
      | None => ([], None)
      | Some tbody =>
          let rows := extract_rows (find_all "tr" None tbody) [] in
          let next_href :=
            match find "a" (Some "next") soup with
            | Some next_link => dict_get "href" (tag_attrs next_link)
            | None => None
            end in
          (rows, next_href)
      end
  end.

(** ** Scrape/paginate over the demo site *)

(** What a resolved path holds when it exists: a page that can be read, or
    something [read_text] fails on (a directory, a file that is not UTF-8). *)
Inductive file :=
  | Page (soup : node)
  | Unreadable.

Section Site.

(** The site directory, [Path.parent] and [(dir / href).resolve()]. *)
Variable SITE_DIR : string.
Variable parent : string -> string.
Variable resolve : string -> string -> string.

(** The paths that exist. *)
Variable site : gmap string file.

(** Line 225: [(current.parent / next_href).resolve() if next_href else
    None]; an empty [href] is falsy. *)
Definition advance (current : string) (next_href : option string) : option string :=
  match next_href with
  | Some href =>
      if bool_decide (href = "") then None
      else Some (resolve (parent current) href)
  | None => None
  end.

(** The [while] loop of lines 215-225.  [current] is [None] when the
    variable holds [None]; one unit of [fuel] is spent per test of the loop
    condition, and [None] is returned when it runs out. *)
Fixpoint crawl (fuel : nat) (current : option string) (seen : gset string)
    (all_rows : list Raw.t) : option (result (list Raw.t)) :=
  match fuel with
  | O => None
  | S fuel' =>
      match current with
      | None => Some (Ok all_rows)
      | Some cur =>
          match site !! cur with
          | None => Some (Ok all_rows)
          | Some f =>
              if bool_decide (cur ∈ seen) then Some (Ok all_rows)
              else
                match f with
                | Unreadable => Some (Raise OSError)
                | Page html =>
                    let '(rows, next_href) := parse_company_table html in
                    crawl fuel' (advance cur next_href) ({[cur]} ∪ seen)
                          (all_rows ++ rows)
                end
          end
      end
  end.

(** Every turn of the loop marks one more existing path, so one test more
    than there are paths is enough. *)
Definition scrape_demo_site (start_page : string) : option (result Frame) :=
  match crawl (S (size site)) (Some (resolve SITE_DIR start_page)) ∅ [] with
  | Some (Ok all_rows) => Some (Ok (DataFrame all_rows))
  | Some (Raise e) => Some (Raise e)
  | None => None
  end.

End Site.

(** ** Notions used to state the properties *)

(** A text made of digits only, or of a ["+"] followed by digits only. *)
Definition digits_with_optional_leading_plus (s : string) : bool :=
  match s with
  | String c t =>
      if bool_decide (c = "+"%char) then forallb_string isdigit t
      else forallb_string isdigit s
  | EmptyString => true
  end.

(** Where the white space of a text is. *)
Fixpoint space_shape (s : string) : list bool :=
  match s with
  | EmptyString => []
  | String c t => isspace c :: space_shape t
  end.

(** Row [i] of a key column repeats an earlier one (the keys in [earlier]
    come before the column). *)
Definition repeats_after (earlier keys : list (cell * cell)) (i : nat) : bool :=
  match keys !! i with
  | Some k => bool_decide (k ∈ earlier ++ take i keys)
  | None => false
  end.

Definition repeats (keys : list (cell * cell)) (i : nat) : bool :=
  repeats_after [] keys i.

(** The number of rows whose key repeats the key of an earlier row. *)
Definition duplicate_count (keys : list (cell * cell)) : nat :=
  length (List.filter (repeats keys) (seq 0 (length keys))).

(** The identifier text [s] goes through line 254 without an exception. *)
Definition coerces (s : string) : bool :=
  match astype_Int64 (to_numeric (Str s)) with
  | Ok _ => true
  | Raise _ => false
  end.

(** The rows that [drop_duplicates] keeps when the keys in [seen] have been
    met already. *)
Definition kept_from (seen : gset (cell * cell)) (df : Frame) : Frame :=
  select (map negb (duplicated_from seen (map subset_key df))) df.

(** What lines 254-278 make of one row when nothing raises. *)
Definition clean_row (r : Row) : result Row :=
  id ← astype_Int64 (to_numeric (CompanyID r));
  country ← apply_normalize_country (Country r);
  Ok (mkRow id (clean_text (CompanyName r)) (clean_text (Category r))
            (clean_email (Email r)) (clean_phone (Phone r)) country).

(** What one page contributes, and the link it names. *)
Definition page_rows (soup : node) : list Raw.t := fst (parse_company_table soup).
Definition page_next (soup : node) : option string := snd (parse_company_table soup).

(** [follows parent resolve site start pages stop]: from [start] the links
    lead through the readable pages [pages], in this order, and [stop] is
    where the link of the last one points ([None] when it has none). *)
Inductive follows (parent : string -> string) (resolve : string -> string -> string)
    (site : gmap string file) : option string -> list (string * node) -> option string -> Prop :=
  | follows_end (stop : option string) :
      follows parent resolve site stop [] stop
  | follows_page (cur : string) (soup : node) (pages : list (string * node))
      (stop : option string) :
      site !! cur = Some (Page soup) ->
      follows parent resolve site (advance parent resolve cur (page_next soup)) pages stop ->
      follows parent resolve site (Some cur) ((cur, soup) :: pages) stop.

Definition chain_rows (pages : list (string * node)) : list Raw.t :=
  concat (map (fun p => page_rows (snd p)) pages).

(** ** Fixtures for the examples *)

Definition td (s : string) : node := Tag "td" [] [NavigableString s].
Definition tr6 (a b c d e f : string) : node :=
  Tag "tr" [] [td a; td b; td c; td d; td e; td f].
Definition page (trs : list node) (next : list node) : node :=
  Tag "[document]" []
    [Tag "html" [] [Tag "body" []
       (Tag "table" [("id", "company-table")]
          [Tag "thead" [] [Tag "tr" [] [Tag "th" [] [NavigableString "CompanyID"]]];
           Tag "tbody" [] trs] :: next)]].
Definition next_link (href : string) : node :=
  Tag "a" [("id", "next"); ("href", href)] [NavigableString "Next"].

Definition demo_parent : string -> string := fun _ => "/site".
Definition demo_resolve : string -> string -> string := fun dir href => dir +:+ "/" +:+ href.

Definition page1 : node :=
  page [tr6 " 1 " "acme" "tech" "A@x.com" "(555) 123-4567" "usa";
        Tag "tr" [] [td "only"; td "five"; td "cells"; td "in"; td "here"];
        tr6 "2" "bolt" "tools" "b@x.com" "12345" "bRaZiL"]
       [next_link "page2.html"].

Definition page2 : node :=
  page [tr6 "3" "core" "food" "c@x.com" "N/A" "uk"] [next_link "page1.html"].

(** [page1] and [page2] name each other. *)
Definition site_cycle : gmap string file :=
  <["/site/page1.html" := Page page1]> (<["/site/page2.html" := Page page2]> ∅).

(** [page1] names a second page that does not exist. *)
Definition site_missing_second : gmap string file :=
  <["/site/page1.html" := Page page1]> ∅.

(** The second page exists but cannot be read. *)
Definition site_unreadable_second : gmap string file :=
  <["/site/page1.html" := Page page1]> (<["/site/page2.html" := Unreadable]> ∅).

(** The entry page exists; its table has no row and there is no link. *)
Definition site_empty_entry : gmap string file :=
  <["/site/page1.html" := Page (page [] [])]> ∅.

(** A table without body section next to a link that carries a target. *)
Definition soup_without_tbody : node :=
  Tag "[document]" []
    [Tag "table" [("id", "company-table")] [tr6 "1" "a" "b" "c" "d" "e"];
     next_link "page2.html"].

(** Four scraped rows: the third repeats the key of the first once cleaned,
    the fourth repeats the all-missing key of the second. *)
Definition sample_rows : list Raw.t :=
  [Raw.mk "1" " acme corp " "tech" "A@x.com" "(555) 123-4567" "usa";
   Raw.mk "x" "bolt" "tools" "" "N/A" "bRaZiL";
   Raw.mk "1.0" "acme again" "tech" " a@X.com" "12345" "uk";
   Raw.mk "" "nameless" "misc" "  " "" "canada"].

Definition sample_clean : Frame :=
  [mkRow (Int 1) (Str "Acme Corp") (Str "Tech") (Str "a@x.com")
         (Str "+15551234567") (Str "United States");
   mkRow NA (Str "Bolt") (Str "Tools") NA NA (Str "Brazil")].

(** Two scraped rows that both carry an e-mail. *)
Definition sample_rows_with_email : list Raw.t :=
  [Raw.mk "1" " acme corp " "tech" "A@x.com" "(555) 123-4567" "usa";
   Raw.mk "x" "bolt" "tools" " B@x.com" "N/A" "bRaZiL"].

Definition sample_clean_with_email : Frame :=
  [mkRow (Int 1) (Str "Acme Corp") (Str "Tech") (Str "a@x.com")
         (Str "+15551234567") (Str "United States");
   mkRow NA (Str "Bolt") (Str "Tools") (Str "b@x.com") NA (Str "Brazil")].

(** ** Further notions and fixtures *)

(** Lines 321-324 of [main]: the frame that is handed to [save_outputs], or
    the exception that ends the run before anything is saved. *)
Definition main_clean (SITE_DIR : string) (parent : string -> string)
    (resolve : string -> string -> string) (site : gmap string file)
    : option (result Frame) :=
  match scrape_demo_site SITE_DIR parent resolve site "page1.html" with
  | Some (Ok raw) => Some (clean_dataframe raw)
  | Some (Raise e) => Some (Raise e)
  | None => None
  end.

(** A text without white space at either end. *)
Definition stripped (s : string) : Prop := str_strip s = s.

(** The six texts of a scraped row. *)
Definition raw_fields (d : Raw.t) : list string :=
  [Raw.CompanyID d; Raw.CompanyName d; Raw.Category d;
   Raw.Email d; Raw.Phone d; Raw.Country d].

(** A last page whose link has an empty target. *)
Definition page_last : node :=
  page [tr6 "1" "acme copy" "tech" " a@X.com " "555 123 4567" "USA"] [next_link ""].

(** [page1] leads to a last page. *)
Definition site_linear : gmap string file :=
  <["/site/page1.html" := Page page1]> (<["/site/page2.html" := Page page_last]> ∅).

(** The shape of a cleaned row: which cells may be missing and the normal
    form of those that are present. *)
Definition cleaned_row (r : Row) : Prop :=
  (CompanyID r = NA \/ exists z, CompanyID r = Int z /\ in_int64 z = true)
  /\ (exists s, CompanyName r = Str s /\ stripped s /\ str_title s = s)
  /\ (exists s, Category r = Str s /\ stripped s /\ str_title s = s)
  /\ (Email r = NA
      \/ exists e, Email r = Str e /\ e <> "" /\ stripped e /\ str_lower e = e)
  /\ (Phone r = NA
      \/ exists p, Phone r = Str p /\ p <> ""
                   /\ forallb_string digit_or_plus p = true)
  /\ (exists c, Country r = Str c /\ stripped c /\ str_title c = c).

(** * Properties *)

Example numeric_1 : astype_Int64 (to_numeric (Str " 42 ")) = Ok (Int 42).
Proof. vm_compute. reflexivity. Qed.
Example numeric_2 : astype_Int64 (to_numeric (Str "1.5")) = Raise TypeError.
Proof. vm_compute. reflexivity. Qed.
Example numeric_3 : astype_Int64 (to_numeric (Str "-12.50e1")) = Ok (Int (-125)).
Proof. vm_compute. reflexivity. Qed.
Example numeric_4 : astype_Int64 (to_numeric (Str "A17")) = Ok NA.
Proof. vm_compute. reflexivity. Qed.
Example numeric_5 : astype_Int64 (to_numeric (Str "1e")) = Ok NA.
Proof. vm_compute. reflexivity. Qed.
Example numeric_6 : astype_Int64 (to_numeric (Str "")) = Ok NA.
Proof. vm_compute. reflexivity. Qed.
Example numeric_7 : astype_str (Int (-15)) = "-15".
Proof. vm_compute. reflexivity. Qed.

Example clean_1 :
  clean_dataframe (DataFrame
    [Raw.mk "1" " acme corp " "tech" "A@x.com" "(555) 123-4567" "usa";
     Raw.mk "x" "b" "c" "" "N/A" "bRaZiL";
     Raw.mk "1.0" "dup" "c" " a@X.com" "12345" "uk"])
  = Ok [mkRow (Int 1) (Str "Acme Corp") (Str "Tech") (Str "a@x.com") (Str "+15551234567") (Str "United States");
        mkRow NA (Str "B") (Str "C") NA NA (Str "Brazil")].
Proof. vm_compute. reflexivity. Qed.

Example parse_1 :
  parse_company_table
    (page [tr6 " 1 " "a" "b" "c" "d" "e"; Tag "tr" [] [td "x"]; tr6 "2" "a" "b" "c" "d" "e"]
          [next_link "page2.html"])
  = ([Raw.mk "1" "a" "b" "c" "d" "e"; Raw.mk "2" "a" "b" "c" "d" "e"], Some "page2.html").
Proof. vm_compute. reflexivity. Qed.

Example crawl_1 :
  scrape_demo_site "/site" (fun _ => "/site") (fun d h => d +:+ "/" +:+ h)
    (<["/site/page1.html" := Page (page [tr6 "1" "a" "b" "c" "d" "e"] [next_link "page2.html"])]>
     (<["/site/page2.html" := Page (page [tr6 "2" "a" "b" "c" "d" "e"] [next_link "page1.html"])]> ∅))
    "page1.html"
  = Some (Ok (DataFrame [Raw.mk "1" "a" "b" "c" "d" "e"; Raw.mk "2" "a" "b" "c" "d" "e"])).
Proof. vm_compute. reflexivity. Qed.

(** ** Characters *)

Ltac ascii_cases c :=
  destruct c as [[] [] [] [] [] [] [] []]; vm_compute;
  try reflexivity; try discriminate; try tauto.

Lemma isspace_tolower c : isspace (tolower c) = isspace c.
Proof. ascii_cases c. Qed.

Lemma isspace_toupper c : isspace (toupper c) = isspace c.
Proof. ascii_cases c. Qed.

Lemma iscased_tolower c : iscased (tolower c) = iscased c.
Proof. ascii_cases c. Qed.

Lemma iscased_toupper c : iscased (toupper c) = iscased c.
Proof. ascii_cases c. Qed.

Lemma tolower_tolower c : tolower (tolower c) = tolower c.
Proof. ascii_cases c. Qed.

Lemma toupper_toupper c : toupper (toupper c) = toupper c.
Proof. ascii_cases c. Qed.

Lemma tolower_toupper c : tolower (toupper c) = tolower c.
Proof. ascii_cases c. Qed.

Lemma digit_or_plus_not_space c : digit_or_plus c = true -> isspace c = false.
Proof. ascii_cases c. Qed.

Lemma digit_or_plus_tolower c : digit_or_plus c = true -> tolower c = c.
Proof. ascii_cases c. Qed.

Lemma isdigit_not_plus c : isdigit c = true -> c <> "+"%char.
Proof. ascii_cases c. Qed.

(** ** Texts *)

Lemma filter_string_forallb keep s :
  forallb_string keep (filter_string keep s) = true.
Proof.
  induction s as [|c t IH]; simpl; [reflexivity|].
  destruct (keep c) eqn:Hc; simpl; [rewrite Hc|]; exact IH.
Qed.

Lemma filter_string_id keep s :
  forallb_string keep s = true -> filter_string keep s = s.
Proof.
  induction s as [|c t IH]; simpl; [reflexivity|].
  intros [Hc Ht]%andb_true_iff. rewrite Hc, IH by exact Ht. reflexivity.
Qed.

(** ** normalize_phone *)

Lemma infer_us_prefix_digits d :
  forallb_string isdigit d = true ->
  infer_us_prefix d =
    if bool_decide (String.length d = 11) && startswith "1" d then "+" +:+ d
    else if bool_decide (String.length d = 10) then "+1" +:+ d
    else d.
Proof.
  intros Hd. unfold infer_us_prefix.
  destruct d as [|c t]; [reflexivity|].
  simpl in Hd. apply andb_true_iff in Hd as [Hc _].
  assert (startswith "+" (String c t) = false) as ->.
  { simpl. apply bool_decide_eq_false. by apply isdigit_not_plus. }
  rewrite bool_decide_eq_false_2 by discriminate. reflexivity.
Qed.

(** C1.  Once the missing-value test is passed and the stripped text is made
    of digits only, [normalize_phone] prefixes ["+"] to eleven digits that
    begin with ["1"], prefixes ["+1"] to ten digits, and returns any other
    digit text unchanged; the five literal cases of the specification hold,
    the ["N/A"] one giving the empty text that the frame stores as the
    missing value. *)
Theorem normalize_phone_policy :
  (forall raw : string,
     is_missing raw = false ->
     forallb_string isdigit (strip_non_digits raw) = true ->
     let digits := strip_non_digits raw in
     (String.length digits = 11 -> startswith "1" digits = true ->
        normalize_phone raw = "+" +:+ digits)
     /\ (String.length digits = 10 -> normalize_phone raw = "+1" +:+ digits)
     /\ (~ (String.length digits = 11 /\ startswith "1" digits = true) ->
         String.length digits <> 10 -> normalize_phone raw = digits))
  /\ normalize_phone "(555) 123-4567" = "+15551234567"
  /\ normalize_phone "1-555-123-4567" = "+15551234567"
  /\ normalize_phone "+44 20 7946 0958" = "+442079460958"
  /\ normalize_phone "N/A" = "" /\ clean_phone (Str "N/A") = NA
  /\ normalize_phone "12345" = "12345".
Proof.
  split; [|by vm_compute].
  intros raw Hm Hd digits. unfold normalize_phone. rewrite Hm.
  rewrite (infer_us_prefix_digits _ Hd). fold digits.
  split; [|split].
  - intros H11 H1. rewrite H1. case_bool_decide; [reflexivity|contradiction].
  - intros H10.
    repeat case_bool_decide; try lia; reflexivity.
  - intros Hn11 Hn10.
    destruct (startswith "1" digits) eqn:H1;
      repeat case_bool_decide; try lia; try reflexivity.
Qed.

Lemma normalize_phone_policy_witness :
  normalize_phone "1 (555) 123-4567" = "+15551234567".
Proof.
  refine (proj1 (proj1 normalize_phone_policy "1 (555) 123-4567" _ _) _ _);
    vm_compute; reflexivity.
Defined.

(** C4.  The stripping step keeps a ["+"] wherever it stands: on
    ["555+1234"], which is no missing-value sentinel, the stripped text still
    has its ["+"] after three digits, and this is what [normalize_phone]
    returns. *)
Theorem strip_keeps_inner_plus :
  is_missing "555+1234" = false
  /\ strip_non_digits "555+1234" = "555+1234"
  /\ digits_with_optional_leading_plus (strip_non_digits "555+1234") = false
  /\ normalize_phone "555+1234" = "555+1234".
Proof. by vm_compute. Qed.

(** ** normalize_country *)

Lemma dict_get_None key items :
  key ∉ map fst items -> dict_get key items = None.
Proof.
  induction items as [|[k v] rest IH]; simpl; [reflexivity|].
  intros Hn. rewrite bool_decide_eq_false_2.
  - apply IH. intros ?. apply Hn. by right.
  - intros ->. apply Hn. by left.
Qed.

(** C7.  [normalize_country] trims its argument; when the trimmed text read
    in lower case is one of the known variants the canonical label is
    returned, and otherwise the trimmed text is returned in title case, so
    no text is rejected; ["bRaZiL"] gives ["Brazil"]. *)
Theorem normalize_country_policy :
  (forall raw : string,
     let key := str_lower (str_strip raw) in
     (key = "usa" \/ key = "united states" -> normalize_country raw = "United States")
     /\ (key = "canada" -> normalize_country raw = "Canada")
     /\ (key = "uk" \/ key = "united kingdom" -> normalize_country raw = "United Kingdom")
     /\ (key = "mexico" -> normalize_country raw = "Mexico")
     /\ (key ∉ ["usa"; "united states"; "canada"; "uk"; "united kingdom"; "mexico"] ->
         normalize_country raw = str_title (str_strip raw)))
  /\ normalize_country "usa" = "United States"
  /\ normalize_country "bRaZiL" = "Brazil".
Proof.
  split; [|by vm_compute].
  intros raw key.
  assert (Hne : forall k, key = k -> k <> "" -> bool_decide (raw = "") = false).
  { intros k Hk Hk'. apply bool_decide_eq_false. intros ->. subst key k.
    apply Hk'. reflexivity. }
  unfold normalize_country. fold key.
  repeat split.
  - intros [H|H]; rewrite (Hne _ H) by discriminate; rewrite H; reflexivity.
  - intros H; rewrite (Hne _ H) by discriminate; rewrite H; reflexivity.
  - intros [H|H]; rewrite (Hne _ H) by discriminate; rewrite H; reflexivity.
  - intros H; rewrite (Hne _ H) by discriminate; rewrite H; reflexivity.
  - intros H. case_bool_decide as Hraw.
    + subst raw. reflexivity.
    + rewrite (dict_get_None key country_mapping) by exact H. reflexivity.
Qed.

Lemma normalize_country_policy_witness :
  normalize_country "  uNiTeD kInGdOm " = "United Kingdom".
Proof.
  refine (proj1 (proj2 (proj2 (proj1 normalize_country_policy "  uNiTeD kInGdOm ")))
            (or_intror _)).
  vm_compute. reflexivity.
Defined.

(** ** parse_company_table *)

Lemma extract_rows_acc trs : forall rows,
  extract_rows trs rows = rows ++ extract_rows trs [].
Proof.
  induction trs as [|tr rest IH]; intros rows; simpl.
  - by rewrite app_nil_r.
  - case_bool_decide; [apply IH|].
    rewrite IH, (IH [_]), app_assoc. reflexivity.
Qed.

Lemma extract_rows_app before after : forall rows,
  extract_rows (before ++ after) rows = extract_rows after (extract_rows before rows).
Proof.
  induction before as [|tr rest IH]; intros rows; simpl; [reflexivity|].
  case_bool_decide; apply IH.
Qed.

Lemma extract_rows_concat trs :
  extract_rows trs [] = concat (map (fun tr => extract_rows [tr] []) trs).
Proof.
  induction trs as [|tr rest IH]; [reflexivity|].
  change (tr :: rest) with ([tr] ++ rest) at 1.
  rewrite extract_rows_app, extract_rows_acc, IH. reflexivity.
Qed.

Lemma parse_company_table_body soup table tbody :
  find "table" (Some "company-table") soup = Some table ->
  find "tbody" None table = Some tbody ->
  page_rows soup = extract_rows (find_all "tr" None tbody) [].
Proof.
  intros Ht Hb. unfold page_rows, parse_company_table. rewrite Ht, Hb. reflexivity.
Qed.

(** C9.  The records of a page are those of the rows of the table body, each
    row taken on its own and in order: a row with six cells gives the record
    of its six texts, a row with any other number of cells gives nothing, and
    the rows before and after such a row are extracted as if it were not
    there. *)
Theorem parse_skips_malformed_rows (soup table tbody : node) :
  find "table" (Some "company-table") soup = Some table ->
  find "tbody" None table = Some tbody ->
  page_rows soup
    = concat (map (fun tr => extract_rows [tr] []) (find_all "tr" None tbody))
  /\ (forall tr a b c d e f,
        map get_text (find_all "td" None tr) = [a; b; c; d; e; f] ->
        extract_rows [tr] [] = [Raw.mk a b c d e f])
  /\ (forall bad, length (find_all "td" None bad) <> 6 -> extract_rows [bad] [] = [])
  /\ (forall before bad after,
        find_all "tr" None tbody = before ++ bad :: after ->
        length (find_all "td" None bad) <> 6 ->
        page_rows soup = extract_rows before [] ++ extract_rows after []).
Proof.
  intros Ht Hb. rewrite (parse_company_table_body _ _ _ Ht Hb).
  split; [apply extract_rows_concat|].
  assert (Hbad : forall bad, length (find_all "td" None bad) <> 6 ->
                             extract_rows [bad] [] = []).
  { intros bad Hn. simpl. rewrite length_map. by rewrite bool_decide_eq_true_2. }
  split; [|split; [exact Hbad|]].
  - intros tr a b c d e f Hc. simpl. rewrite Hc. reflexivity.
  - intros before bad after Htrs Hn. rewrite Htrs.
    rewrite extract_rows_app.
    change (bad :: after) with ([bad] ++ after).
    rewrite extract_rows_app, (extract_rows_acc after).
    rewrite (extract_rows_acc [bad]), (Hbad _ Hn), app_nil_r. reflexivity.
Qed.

Lemma parse_skips_malformed_rows_witness :
  page_rows page1
  = [Raw.mk "1" "acme" "tech" "A@x.com" "(555) 123-4567" "usa"]
    ++ [Raw.mk "2" "bolt" "tools" "b@x.com" "12345" "bRaZiL"].
Proof.
  refine (proj2 (proj2 (proj2 (parse_skips_malformed_rows page1
    (Tag "table" [("id", "company-table")]
       [Tag "thead" [] [Tag "tr" [] [Tag "th" [] [NavigableString "CompanyID"]]];
        Tag "tbody" []
          [tr6 " 1 " "acme" "tech" "A@x.com" "(555) 123-4567" "usa";
           Tag "tr" [] [td "only"; td "five"; td "cells"; td "in"; td "here"];
           tr6 "2" "bolt" "tools" "b@x.com" "12345" "bRaZiL"]])
    (Tag "tbody" []
       [tr6 " 1 " "acme" "tech" "A@x.com" "(555) 123-4567" "usa";
        Tag "tr" [] [td "only"; td "five"; td "cells"; td "in"; td "here"];
        tr6 "2" "bolt" "tools" "b@x.com" "12345" "bRaZiL"])
    _ _)))
    [tr6 " 1 " "acme" "tech" "A@x.com" "(555) 123-4567" "usa"]
    (Tag "tr" [] [td "only"; td "five"; td "cells"; td "in"; td "here"])
    [tr6 "2" "bolt" "tools" "b@x.com" "12345" "bRaZiL"] _ _);
    vm_compute; (reflexivity || lia).
Defined.

(** ** scrape_demo_site *)

Section SiteFacts.

Variable SITE_DIR : string.
Variable parent : string -> string.
Variable resolve : string -> string -> string.
Variable site : gmap string file.

Lemma follows_exist start pages stop :
  follows parent resolve site start pages stop ->
  forall p, p ∈ map fst pages -> p ∈ dom site.
Proof.
  induction 1 as [stop|cur soup pages stop Hcur _ IH]; simpl; intros p Hp.
  - by apply elem_of_nil in Hp.
  - apply elem_of_cons in Hp as [->|Hp]; [|by apply IH].
    apply elem_of_dom. by eexists.
Qed.

(** The loop walks a chain of distinct unseen pages to its end and stops
    where the last link points, when that is nowhere, missing, or already
    seen. *)
Lemma crawl_follows start pages stop :
  follows parent resolve site start pages stop ->
  forall fuel (seen : gset string) all_rows,
    NoDup (map fst pages) ->
    (forall p, p ∈ map fst pages -> p ∉ seen) ->
    match stop with
    | None => True
    | Some q => site !! q = None \/ q ∈ seen \/ q ∈ map fst pages
    end ->
    length pages < fuel ->
    crawl parent resolve site fuel start seen all_rows
    = Some (Ok (all_rows ++ chain_rows pages)).
Proof.
  induction 1 as [stop|cur soup pages stop Hcur _ IH];
    intros fuel seen all_rows Hnd Hfresh Hstop Hfuel.
  - destruct fuel as [|fuel]; [simpl in Hfuel; lia|].
    unfold chain_rows. simpl. rewrite app_nil_r.
    destruct stop as [q|]; [|reflexivity].
    destruct (site !! q) as [f|] eqn:Hq; [|reflexivity].
    destruct Hstop as [?|[Hs|Hs]]; [congruence| |by apply elem_of_nil in Hs].
    by rewrite bool_decide_eq_true_2.
  - destruct fuel as [|fuel]; [simpl in Hfuel; lia|].
    simpl in *. rewrite Hcur.
    rewrite bool_decide_eq_false_2 by (apply Hfresh; by left).
    apply NoDup_cons in Hnd as [Hnotin Hnd].
    unfold page_next in IH.
    destruct (parse_company_table soup) as [rows next_href] eqn:Hparse.
    simpl in IH. rewrite (IH fuel ({[cur]} ∪ seen) (all_rows ++ rows) Hnd).
    + unfold chain_rows, page_rows. simpl. rewrite Hparse. simpl.
      by rewrite app_assoc.
    + intros p Hp Hin. apply elem_of_union in Hin as [Hin|Hin].
      * apply elem_of_singleton in Hin. by subst p.
      * eapply Hfresh; [right; exact Hp|exact Hin].
    + destruct stop as [q|]; [|exact I].
      destruct Hstop as [?|[Hs|Hs]]; [by left|right; left; set_solver|].
      apply elem_of_cons in Hs as [->|Hs]; [right; left; set_solver|by right; right].
    + lia.
Qed.

(** A chain of distinct existing pages is no longer than the site. *)
Lemma follows_length start pages stop :
  follows parent resolve site start pages stop ->
  NoDup (map fst pages) ->
  length pages <= size site.
Proof.
  intros Hf Hnd.
  rewrite <- (length_map fst pages).
  rewrite <- (size_list_to_set (C := gset string) _ Hnd).
  rewrite <- (size_dom (D := gset string) site).
  apply subseteq_size. intros p Hp. apply elem_of_list_to_set in Hp.
  by eapply follows_exist.
Qed.

(** Each turn marks an existing path that was not marked, so the paths
    still unmarked bound the number of turns. *)
Lemma crawl_terminates fuel : forall current (seen : gset string) all_rows,
  size (dom site ∖ seen) < fuel ->
  is_Some (crawl parent resolve site fuel current seen all_rows).
Proof.
  induction fuel as [|fuel IH]; intros current seen all_rows Hsize; [lia|].
  simpl. destruct current as [cur|]; [|by eexists].
  destruct (site !! cur) as [f|] eqn:Hcur; [|by eexists].
  case_bool_decide as Hseen; [by eexists|].
  destruct f as [soup|]; [|by eexists].
  destruct (parse_company_table soup) as [rows next_href].
  apply IH.
  assert (dom site ∖ ({[cur]} ∪ seen) ⊂ dom site ∖ seen) as Hsub.
  { split.
    - intros x [Hx Hn]%elem_of_difference. apply elem_of_difference.
      split; [exact Hx|]. intros Hs. apply Hn, elem_of_union. by right.
    - intros Hback.
      assert (cur ∈ dom site ∖ ({[cur]} ∪ seen)) as [_ Hn]%elem_of_difference.
      { apply Hback, elem_of_difference. split; [|exact Hseen].
        apply elem_of_dom. by eexists. }
      apply Hn, elem_of_union. left. by apply elem_of_singleton. }
  apply subset_size in Hsub. lia.
Qed.

Lemma scrape_demo_site_follows start_page pages stop :
  follows parent resolve site (Some (resolve SITE_DIR start_page)) pages stop ->
  NoDup (map fst pages) ->
  match stop with
  | None => True
  | Some q => site !! q = None \/ q ∈ map fst pages
  end ->
  scrape_demo_site SITE_DIR parent resolve site start_page
  = Some (Ok (DataFrame (chain_rows pages))).
Proof.
  intros Hf Hnd Hstop. unfold scrape_demo_site.
  rewrite (crawl_follows _ _ _ Hf (S (size site)) ∅ [] Hnd); [reflexivity| | |].
  - intros p _. apply not_elem_of_empty.
  - destruct stop as [q|]; [|exact I]. destruct Hstop; [by left|by right; right].
  - pose proof (follows_length _ _ _ Hf Hnd). lia.
Qed.

End SiteFacts.

Lemma crawl_fuel_mono parent resolve site fuel :
  forall current (seen : gset string) all_rows r,
    crawl parent resolve site fuel current seen all_rows = Some r ->
    crawl parent resolve site (S fuel) current seen all_rows = Some r.
Proof.
  induction fuel as [|fuel IH]; intros current seen all_rows r; [discriminate|].
  intros H. simpl in H. change (crawl parent resolve site (S (S fuel)) current seen all_rows)
    with (match current with
          | None => Some (Ok all_rows)
          | Some cur =>
              match site !! cur with
              | None => Some (Ok all_rows)
              | Some f =>
                  if bool_decide (cur ∈ seen) then Some (Ok all_rows)
                  else
                    match f with
                    | Unreadable => Some (Raise OSError)
                    | Page html =>
                        let '(rows, next_href) := parse_company_table html in
                        crawl parent resolve site (S fuel) (advance parent resolve cur next_href)
                              ({[cur]} ∪ seen) (all_rows ++ rows)
                    end
              end
          end).
  destruct current as [cur|]; [|exact H].
  destruct (site !! cur) as [f|]; [|exact H].
  case_bool_decide; [exact H|].
  destruct f as [soup|]; [|exact H].
  destruct (parse_company_table soup) as [rows next_href].
  apply IH, H.
Qed.

Lemma crawl_fuel_le parent resolve site fuel fuel' current (seen : gset string) all_rows r :
  fuel <= fuel' ->
  crawl parent resolve site fuel current seen all_rows = Some r ->
  crawl parent resolve site fuel' current seen all_rows = Some r.
Proof.
  induction 1 as [|fuel' _ IH]; [tauto|].
  intros H. apply crawl_fuel_mono, IH, H.
Qed.

(** C3.  The crawl ends on every site: one test of the loop condition more
    than the site has paths gives a result, and more fuel gives the same
    one.  When the links lead from the entry page through distinct readable
    pages and the link of the last one points back to one of them, the
    result is the records of these pages, each page once, in the order the
    pages were met and inside a page in row order. *)
Theorem crawl_stops_on_cycle (SITE_DIR : string) (parent : string -> string)
    (resolve : string -> string -> string) (site : gmap string file)
    (start_page : string) :
  (exists r, forall fuel, size site < fuel ->
     crawl parent resolve site fuel (Some (resolve SITE_DIR start_page)) ∅ [] = Some r)
  /\ is_Some (scrape_demo_site SITE_DIR parent resolve site start_page)
  /\ (forall pages back,
        follows parent resolve site (Some (resolve SITE_DIR start_page)) pages (Some back) ->
        NoDup (map fst pages) ->
        back ∈ map fst pages ->
        scrape_demo_site SITE_DIR parent resolve site start_page
        = Some (Ok (DataFrame (chain_rows pages)))).
Proof.
  assert (Hterm : is_Some (crawl parent resolve site (S (size site))
                             (Some (resolve SITE_DIR start_page)) ∅ [])).
  { apply crawl_terminates. rewrite difference_empty_L, size_dom. lia. }
  split; [|split].
  - destruct Hterm as [r Hr]. exists r. intros fuel Hfuel.
    eapply crawl_fuel_le; [|exact Hr]. lia.
  - unfold scrape_demo_site. destruct Hterm as [[rows|e] ->]; by eexists.
  - intros pages back Hf Hnd Hback.
    apply (scrape_demo_site_follows _ _ _ _ _ _ _ Hf Hnd). by right.
Qed.

Lemma crawl_stops_on_cycle_witness :
  scrape_demo_site "/site" demo_parent demo_resolve site_cycle "page1.html"
  = Some (Ok (DataFrame
      (chain_rows [("/site/page1.html", page1); ("/site/page2.html", page2)]))).
Proof.
  refine (proj2 (proj2 (crawl_stops_on_cycle "/site" demo_parent demo_resolve
            site_cycle "page1.html"))
          [("/site/page1.html", page1); ("/site/page2.html", page2)]
          "/site/page1.html" _ _ _).
  - apply follows_page; [vm_compute; reflexivity|].
    change (follows demo_parent demo_resolve site_cycle (Some "/site/page2.html")
              [("/site/page2.html", page2)] (Some "/site/page1.html")).
    apply follows_page; [vm_compute; reflexivity|].
    change (follows demo_parent demo_resolve site_cycle (Some "/site/page1.html")
              [] (Some "/site/page1.html")).
    apply follows_end.
  - refine (bool_decide_unpack _ _); vm_compute; exact I.
  - refine (bool_decide_unpack _ _); vm_compute; exact I.
Defined.

(** C6, as the code has it.  When the entry page is missing the result is the
    empty frame.  When the links lead from the entry page through distinct
    readable pages and the link of the last one points to a path that does
    not exist, the crawl returns without error the records gathered on these
    pages. *)
Theorem crawl_stops_on_missing_page (SITE_DIR : string) (parent : string -> string)
    (resolve : string -> string -> string) (site : gmap string file)
    (start_page : string) :
  (site !! resolve SITE_DIR start_page = None ->
   scrape_demo_site SITE_DIR parent resolve site start_page = Some (Ok (DataFrame [])))
  /\ (forall pages missing,
        follows parent resolve site (Some (resolve SITE_DIR start_page)) pages (Some missing) ->
        NoDup (map fst pages) ->
        site !! missing = None ->
        scrape_demo_site SITE_DIR parent resolve site start_page
        = Some (Ok (DataFrame (chain_rows pages)))).
Proof.
  split.
  - intros Hmiss.
    apply (scrape_demo_site_follows _ _ _ _ _ [] (Some (resolve SITE_DIR start_page)));
      [apply follows_end|apply NoDup_nil_2|by left].
  - intros pages missing Hf Hnd Hmiss.
    apply (scrape_demo_site_follows _ _ _ _ _ _ _ Hf Hnd). by left.
Qed.

Lemma crawl_stops_on_missing_page_witness :
  scrape_demo_site "/site" demo_parent demo_resolve site_missing_second "page1.html"
  = Some (Ok (DataFrame (chain_rows [("/site/page1.html", page1)]))).
Proof.
  refine (proj2 (crawl_stops_on_missing_page "/site" demo_parent demo_resolve
            site_missing_second "page1.html")
          [("/site/page1.html", page1)] "/site/page2.html" _ _ _).
  - apply follows_page; [vm_compute; reflexivity|].
    change (follows demo_parent demo_resolve site_missing_second
              (Some "/site/page2.html") [] (Some "/site/page2.html")).
    apply follows_end.
  - refine (bool_decide_unpack _ _); vm_compute; exact I.
  - vm_compute. reflexivity.
Defined.

(** C6 as stated fails twice: an entry page that exists but holds no record
    gives the empty result too, and a second page that exists but cannot be
    read makes the crawl raise instead of returning the records of the
    first page. *)
Lemma crawl_empty_or_raising :
  (is_Some (site_empty_entry !! demo_resolve "/site" "page1.html")
   /\ scrape_demo_site "/site" demo_parent demo_resolve site_empty_entry "page1.html"
      = Some (Ok (DataFrame [])))
  /\ (site_unreadable_second !! "/site/page1.html" = Some (Page page1)
      /\ advance demo_parent demo_resolve "/site/page1.html" (page_next page1)
         = Some "/site/page2.html"
      /\ site_unreadable_second !! "/site/page2.html" = Some Unreadable
      /\ scrape_demo_site "/site" demo_parent demo_resolve site_unreadable_second "page1.html"
         = Some (Raise OSError)).
Proof.
  split; [split; [by eexists|by vm_compute]|].
  repeat split; by vm_compute.
Qed.

(** C10.  When the designated table is found but has no body section,
    [parse_company_table] returns no record and no link, whatever link the
    document carries, so a crawl that reads this page returns what it had
    gathered before. *)
Theorem table_without_tbody (soup table : node) :
  find "table" (Some "company-table") soup = Some table ->
  find "tbody" None table = None ->
  parse_company_table soup = ([], None)
  /\ (forall parent resolve (site : gmap string file) cur (seen : gset string)
        all_rows fuel,
        site !! cur = Some (Page soup) ->
        cur ∉ seen ->
        crawl parent resolve site (S (S fuel)) (Some cur) seen all_rows
        = Some (Ok all_rows)).
Proof.
  intros Ht Hb.
  assert (Hp : parse_company_table soup = ([], None)).
  { unfold parse_company_table. rewrite Ht, Hb. reflexivity. }
  split; [exact Hp|].
  intros parent resolve site cur seen all_rows fuel Hcur Hseen.
  simpl. rewrite Hcur, bool_decide_eq_false_2, Hp by exact Hseen.
  simpl. by rewrite app_nil_r.
Qed.

Lemma table_without_tbody_witness :
  (exists link, find "a" (Some "next") soup_without_tbody = Some link
                /\ dict_get "href" (tag_attrs link) = Some "page2.html")
  /\ parse_company_table soup_without_tbody = ([], None).
Proof.
  split; [eexists; split; vm_compute; reflexivity|].
  refine (proj1 (table_without_tbody soup_without_tbody
            (Tag "table" [("id", "company-table")] [tr6 "1" "a" "b" "c" "d" "e"]) _ _));
    vm_compute; reflexivity.
Defined.

(** ** drop_duplicates *)

Lemma duplicated_from_repeats keys : forall (seen : gset (cell * cell)) earlier,
  (forall k, k ∈ seen <-> k ∈ earlier) ->
  duplicated_from seen keys = map (repeats_after earlier keys) (seq 0 (length keys)).
Proof.
  induction keys as [|k ks IH]; intros seen earlier Hseen; [reflexivity|].
  simpl. f_equal.
  - unfold repeats_after. simpl. rewrite app_nil_r.
    apply bool_decide_ext, Hseen.
  - rewrite <- List.seq_shift, List.map_map.
    rewrite (IH ({[k]} ∪ seen) (earlier ++ [k])).
    + apply List.map_ext. intros i. unfold repeats_after. simpl.
      destruct (ks !! i); [|reflexivity].
      by rewrite <- app_assoc.
    + intros k'. rewrite elem_of_union, elem_of_singleton, elem_of_app, Hseen.
      rewrite list_elem_of_singleton. tauto.
Qed.

Lemma select_length (f : nat -> bool) l : forall df : Frame,
  length l = length df ->
  length (select (map negb (map f l)) df) + length (List.filter f l) = length df.
Proof.
  induction l as [|i l IH]; intros [|r df] Hlen; simpl in *; try lia.
  assert (Hlen' : length l = length df) by lia.
  pose proof (IH df Hlen'). destruct (f i); simpl; lia.
Qed.

Lemma drop_duplicates_length (df : Frame) :
  length (drop_duplicates df) + duplicate_count (map subset_key df) = length df.
Proof.
  unfold drop_duplicates, duplicated, duplicate_count.
  rewrite (duplicated_from_repeats _ ∅ []).
  - rewrite length_map. apply select_length. by rewrite length_seq.
  - intros k. rewrite elem_of_empty, elem_of_nil. tauto.
Qed.

Lemma kept_from_cons seen r df :
  kept_from seen (r :: df)
  = if bool_decide (subset_key r ∈ seen) then kept_from ({[subset_key r]} ∪ seen) df
    else r :: kept_from ({[subset_key r]} ∪ seen) df.
Proof. unfold kept_from. simpl. by case_bool_decide. Qed.

Lemma kept_from_first df : forall seen r,
  r ∈ kept_from seen df <->
  exists i, df !! i = Some r /\ (subset_key r ∉ seen)
            /\ forall j r', j < i -> df !! j = Some r' -> subset_key r' <> subset_key r.
Proof.
  induction df as [|r0 df IH]; intros seen r.
  - unfold kept_from. simpl. split.
    + intros H. by apply elem_of_nil in H.
    + intros (i & H & _). by rewrite lookup_nil in H.
  - rewrite kept_from_cons. split.
    + intros Hin.
      assert (r = r0 /\ subset_key r0 ∉ seen
              \/ r ∈ kept_from ({[subset_key r0]} ∪ seen) df) as [[-> Hk]|Hrest].
      { case_bool_decide; [by right|].
        apply elem_of_cons in Hin as [->|Hin]; [by left|by right]. }
      * exists 0. split; [reflexivity|]. split; [exact Hk|]. intros; lia.
      * apply IH in Hrest as (i & Hi & Hk & Hfirst). exists (S i).
        split; [exact Hi|]. split.
        -- intros Hs. apply Hk, elem_of_union. by right.
        -- intros [|j] r' Hj Hr'; simpl in Hr'.
           ++ injection Hr' as <-. intros Heq. apply Hk, elem_of_union. left.
              by apply elem_of_singleton.
           ++ apply (Hfirst j); [lia|exact Hr'].
    + intros ([|i] & Hi & Hk & Hfirst); simpl in Hi.
      * injection Hi as ->. rewrite bool_decide_eq_false_2 by exact Hk. by left.
      * assert (r ∈ kept_from ({[subset_key r0]} ∪ seen) df) as Hrest.
        { apply IH. exists i. split; [exact Hi|]. split.
          - intros [Hs|Hs]%elem_of_union; [|by apply Hk].
            apply elem_of_singleton in Hs.
            apply (Hfirst 0 r0); [lia|reflexivity|by symmetry].
          - intros j r' Hj Hr'. apply (Hfirst (S j)); [lia|exact Hr']. }
        case_bool_decide; [exact Hrest|by right].
Qed.

Lemma kept_from_NoDup df : forall seen, NoDup (map subset_key (kept_from seen df)).
Proof.
  induction df as [|r0 df IH]; intros seen.
  - apply NoDup_nil_2.
  - rewrite kept_from_cons. case_bool_decide; [apply IH|].
    simpl. apply NoDup_cons. split; [|apply IH].
    intros Hin.
    change (subset_key r0 ∈ subset_key <$> kept_from ({[subset_key r0]} ∪ seen) df) in Hin.
    apply list_elem_of_fmap in Hin as (r & Hr & Hin).
    apply kept_from_first in Hin as (_ & _ & Hk & _).
    apply Hk, elem_of_union. left. by apply elem_of_singleton.
Qed.

Lemma select_sublist mask : forall df : Frame, sublist (select mask df) df.
Proof.
  induction mask as [|b mask IH]; intros [|r df]; simpl; try apply sublist_nil_l.
  destruct b; [apply sublist_skip|apply sublist_cons]; apply IH.
Qed.

Lemma kept_from_id df : forall seen,
  NoDup (map subset_key df) ->
  (forall r, r ∈ df -> subset_key r ∉ seen) ->
  kept_from seen df = df.
Proof.
  induction df as [|r0 df IH]; intros seen Hnd Hfresh; [reflexivity|].
  rewrite kept_from_cons.
  rewrite bool_decide_eq_false_2 by (apply Hfresh; by left).
  simpl in Hnd. apply NoDup_cons in Hnd as [Hnotin Hnd].
  f_equal. apply IH; [exact Hnd|].
  intros r Hr [Hs|Hs]%elem_of_union.
  - apply elem_of_singleton in Hs. apply Hnotin. rewrite <- Hs.
    change (subset_key r ∈ subset_key <$> df).
    apply list_elem_of_fmap. by exists r.
  - eapply Hfresh; [right; exact Hr|exact Hs].
Qed.

(** ** clean_dataframe *)

(** The column statements succeed exactly when every row can be cleaned,
    and then they give the cleaned rows. *)
Lemma standardize_fields_cons r df t :
  standardize_fields (r :: df) = Ok t <->
  exists r' t', clean_row r = Ok r' /\ standardize_fields df = Ok t' /\ t = r' :: t'.
Proof.
  unfold standardize_fields, clean_row, column, assign. cbn.
  destruct (astype_Int64 (to_numeric (CompanyID r))) as [id|e]; cbn.
  2: { split; [discriminate|]. intros (? & ? & ? & _). discriminate. }
  destruct (series_apply _ (map CompanyID df)) as [ids|e]; cbn.
  2: { destruct (apply_normalize_country (Country r)); cbn;
       (split; [discriminate|]); intros (? & ? & _ & ? & _); discriminate. }
  destruct (apply_normalize_country (Country r)) as [country|e]; cbn.
  2: { split; [discriminate|]. intros (? & ? & ? & _). discriminate. }
  destruct (series_apply apply_normalize_country _) as [countries|e]; cbn.
  2: { split; [discriminate|]. intros (? & ? & _ & ? & _). discriminate. }
  split.
  - intros [= <-]. eexists _, _. repeat split.
  - intros (r' & t' & [= <-] & [= <-] & ->). reflexivity.
Qed.

Lemma standardize_fields_rows df : forall t,
  standardize_fields df = Ok t <-> Forall2 (fun r r' => clean_row r = Ok r') df t.
Proof.
  induction df as [|r df IH]; intros t.
  - cbn. split.
    + intros [= <-]. constructor.
    + intros H. inversion H. reflexivity.
  - rewrite standardize_fields_cons. split.
    + intros (r' & t' & Hr & Ht & ->). constructor; [exact Hr|by apply IH].
    + intros H. inversion H as [|? r' ? t' Hr Ht]; subst.
      exists r', t'. repeat split; [exact Hr|by apply IH].
Qed.

(** A frame of scraped rows is cleaned without exception when every
    identifier goes through the cast. *)
Lemma standardize_fields_returns (raws : list Raw.t) :
  Forall (fun d => coerces (Raw.CompanyID d) = true) raws ->
  exists t, standardize_fields (DataFrame raws) = Ok t.
Proof.
  induction 1 as [|d raws Hd _ [t Ht]]; [by exists []|].
  unfold coerces in Hd.
  destruct (astype_Int64 (to_numeric (Str (Raw.CompanyID d)))) as [id|] eqn:Hid;
    [|discriminate].
  eexists. apply standardize_fields_cons. eexists _, t.
  split; [|split; [exact Ht|reflexivity]].
  unfold clean_row. cbn beta iota delta [CompanyID Country]. rewrite Hid. reflexivity.
Qed.

(** C2.  On scraped rows whose identifiers all go through the cast,
    [clean_dataframe] returns a frame in which no two rows have the same
    (CompanyID, Email) pair, two missing values counting as the same value;
    the result has as many rows as the input minus the rows whose cleaned
    pair repeats the pair of an earlier row; a row is in the result exactly
    when it is the first cleaned row with its pair; and the result keeps the
    order of the cleaned rows. *)
Theorem drop_duplicates_keeps_first (raws : list Raw.t) :
  Forall (fun d => coerces (Raw.CompanyID d) = true) raws ->
  exists t out : Frame,
    standardize_fields (DataFrame raws) = Ok t
    /\ clean_dataframe (DataFrame raws) = Ok out
    /\ length t = length raws
    /\ (forall i j ri rj, out !! i = Some ri -> out !! j = Some rj ->
          subset_key ri = subset_key rj -> i = j)
    /\ length out = length raws - duplicate_count (map subset_key t)
    /\ (forall r, r ∈ out <->
          exists i, t !! i = Some r
                    /\ forall j r', j < i -> t !! j = Some r' ->
                                    subset_key r' <> subset_key r)
    /\ sublist out t.
Proof.
  intros Hids. destruct (standardize_fields_returns raws Hids) as [t Ht].
  exists t, (drop_duplicates t).
  assert (Hlen : length t = length raws).
  { pose proof Ht as HF. apply standardize_fields_rows, Forall2_length in HF.
    unfold DataFrame in HF. rewrite length_map in HF. lia. }
  split; [exact Ht|]. split; [unfold clean_dataframe; by rewrite Ht|].
  split; [exact Hlen|]. split; [|split; [|split]].
  - intros i j ri rj Hi Hj Hk.
    pose proof (kept_from_NoDup t ∅) as Hnd.
    apply (NoDup_lookup _ i j (subset_key ri) Hnd).
    + change (map subset_key ?l) with (subset_key <$> l).
      rewrite list_lookup_fmap. unfold drop_duplicates, duplicated in Hi.
      unfold kept_from. by rewrite Hi.
    + change (map subset_key ?l) with (subset_key <$> l).
      rewrite list_lookup_fmap. unfold drop_duplicates, duplicated in Hj.
      unfold kept_from. rewrite Hj. simpl. by rewrite Hk.
  - pose proof (drop_duplicates_length t). lia.
  - intros r. change (drop_duplicates t) with (kept_from ∅ t).
    rewrite kept_from_first. split.
    + intros (i & Hi & _ & Hf). by exists i.
    + intros (i & Hi & Hf). exists i. split; [exact Hi|]. split; [|exact Hf].
      apply not_elem_of_empty.
  - apply select_sublist.
Qed.

Lemma drop_duplicates_keeps_first_witness :
  exists t out : Frame,
    standardize_fields (DataFrame sample_rows) = Ok t
    /\ clean_dataframe (DataFrame sample_rows) = Ok out
    /\ length t = 4
    /\ (forall i j ri rj, out !! i = Some ri -> out !! j = Some rj ->
          subset_key ri = subset_key rj -> i = j)
    /\ length out = 4 - duplicate_count (map subset_key t)
    /\ (forall r, r ∈ out <->
          exists i, t !! i = Some r
                    /\ forall j r', j < i -> t !! j = Some r' ->
                                    subset_key r' <> subset_key r)
    /\ sublist out t.
Proof.
  apply (drop_duplicates_keeps_first sample_rows).
  refine (bool_decide_unpack _ _); vm_compute; exact I.
Defined.

Example sample_rows_clean :
  clean_dataframe (DataFrame sample_rows) = Ok sample_clean
  /\ duplicate_count
       (map subset_key
          [mkRow (Int 1) NA NA (Str "a@x.com") NA NA; mkRow NA NA NA NA NA NA;
           mkRow (Int 1) NA NA (Str "a@x.com") NA NA; mkRow NA NA NA NA NA NA]) = 2.
Proof. by vm_compute. Qed.

(** An identifier that is no number at all becomes the missing value. *)
Lemma unparsable_identifier_is_NA (s : string) :
  xstrtod s = None ->
  str_lower s ∉ infinity_words ->
  astype_Int64 (to_numeric (Str s)) = Ok NA.
Proof.
  intros Hx Hw. simpl. rewrite Hx.
  by rewrite bool_decide_eq_false_2.
Qed.

(** C5.  A company identifier that reads as a number but not as a whole
    number makes the identifier statement raise: on the single row whose
    identifier is ["1.5"], [to_numeric] gives the value 15/10 and the cast
    to [Int64] raises, so [clean_dataframe] returns no frame at all. *)
Theorem identifier_coercion_raises :
  to_numeric (Str "1.5") = Finite 15 (-1)
  /\ astype_Int64 (Finite 15 (-1)) = Raise TypeError
  /\ clean_dataframe
       (DataFrame [Raw.mk "1.5" "Acme" "Tech" "a@x.com" "5551234567" "usa"])
     = Raise TypeError.
Proof. by vm_compute. Qed.

(** ** Running the pipeline on its own result *)

Lemma str_lstrip_length s : String.length (str_lstrip s) <= String.length s.
Proof.
  induction s as [|c t IH]; simpl; [lia|].
  destruct (isspace c); simpl; lia.
Qed.

Lemma str_lstrip_fixed c t :
  str_lstrip (String c t) = String c t <-> isspace c = false.
Proof.
  simpl. destruct (isspace c); [|tauto]. split; [|discriminate].
  intros H. pose proof (str_lstrip_length t) as Hl. rewrite H in Hl.
  simpl in Hl. lia.
Qed.

Lemma str_lstrip_shape s t :
  space_shape s = space_shape t -> str_lstrip s = s -> str_lstrip t = t.
Proof.
  destruct s as [|a s], t as [|b t]; simpl space_shape; try discriminate;
    [reflexivity|].
  intros [= Hab _]. rewrite !str_lstrip_fixed. congruence.
Qed.

Lemma str_rstrip_shape s : forall t,
  space_shape s = space_shape t -> str_rstrip s = s -> str_rstrip t = t.
Proof.
  induction s as [|a s IH]; intros [|b t]; simpl space_shape; try discriminate;
    [reflexivity|].
  intros [= Hab Hsh] H. simpl in H. simpl.
  destruct (str_rstrip s) as [|a0 s0] eqn:Es.
  - destruct (isspace a) eqn:Ea; [discriminate|]. injection H as <-.
    destruct t; [|discriminate]. simpl. by rewrite <- Hab.
  - injection H as <-. rewrite (IH t Hsh eq_refl).
    destruct t; [discriminate|reflexivity].
Qed.

Lemma str_lstrip_idem s : str_lstrip (str_lstrip s) = str_lstrip s.
Proof.
  induction s as [|c t IH]; simpl; [reflexivity|].
  destruct (isspace c) eqn:Hc; [exact IH|]. simpl. by rewrite Hc.
Qed.

Lemma str_rstrip_idem s : str_rstrip (str_rstrip s) = str_rstrip s.
Proof.
  induction s as [|c t IH]; simpl; [reflexivity|].
  destruct (str_rstrip t) as [|c0 t0] eqn:Et.
  - destruct (isspace c) eqn:Hc; simpl; [reflexivity|]. by rewrite Hc.
  - change (str_rstrip (String c (String c0 t0)))
      with (match str_rstrip (String c0 t0) with
            | EmptyString => if isspace c then EmptyString else String c EmptyString
            | t' => String c t'
            end).
    rewrite IH. reflexivity.
Qed.

Lemma str_rstrip_keeps_head u :
  str_lstrip u = u -> str_lstrip (str_rstrip u) = str_rstrip u.
Proof.
  destruct u as [|c t]; [reflexivity|].
  rewrite str_lstrip_fixed. intros Hc. simpl.
  destruct (str_rstrip t); [rewrite Hc|]; by apply str_lstrip_fixed.
Qed.

Lemma str_strip_lstrip x : str_lstrip (str_strip x) = str_strip x.
Proof. apply str_rstrip_keeps_head, str_lstrip_idem. Qed.

Lemma str_strip_rstrip x : str_rstrip (str_strip x) = str_strip x.
Proof. apply str_rstrip_idem. Qed.

Lemma str_strip_fixed s :
  str_lstrip s = s -> str_rstrip s = s -> str_strip s = s.
Proof. unfold str_strip. intros -> ->. reflexivity. Qed.

(** A text of the same white-space shape as a stripped one is stripped. *)
Lemma str_strip_shape x t :
  space_shape (str_strip x) = space_shape t -> str_strip t = t.
Proof.
  intros Hsh. apply str_strip_fixed.
  - eapply str_lstrip_shape; [exact Hsh|apply str_strip_lstrip].
  - eapply str_rstrip_shape; [exact Hsh|apply str_strip_rstrip].
Qed.

Lemma space_shape_lower s : space_shape (str_lower s) = space_shape s.
Proof.
  unfold str_lower. induction s as [|c t IH]; simpl; [reflexivity|].
  by rewrite isspace_tolower, IH.
Qed.

Lemma space_shape_title s : forall p, space_shape (title_from p s) = space_shape s.
Proof.
  induction s as [|c t IH]; intros p; simpl; [reflexivity|].
  rewrite IH. destruct p; by rewrite ?isspace_tolower, ?isspace_toupper.
Qed.

Lemma str_lower_idem s : str_lower (str_lower s) = str_lower s.
Proof.
  unfold str_lower. induction s as [|c t IH]; simpl; [reflexivity|].
  by rewrite tolower_tolower, IH.
Qed.

Lemma title_from_idem s : forall p, title_from p (title_from p s) = title_from p s.
Proof.
  induction s as [|c t IH]; intros p; simpl; [reflexivity|].
  destruct p.
  - by rewrite tolower_tolower, iscased_tolower, IH.
  - by rewrite toupper_toupper, iscased_toupper, IH.
Qed.

Lemma str_lower_title s : forall p, str_lower (title_from p s) = str_lower s.
Proof.
  unfold str_lower. induction s as [|c t IH]; intros p; simpl; [reflexivity|].
  rewrite IH. destruct p; by rewrite ?tolower_tolower, ?tolower_toupper.
Qed.

(** Title-casing text is a fixed point on its own result. *)
Lemma clean_text_idem c : clean_text (clean_text c) = clean_text c.
Proof.
  unfold clean_text. simpl. f_equal.
  rewrite (str_strip_shape (astype_str c)).
  - apply title_from_idem.
  - symmetry. apply space_shape_title.
Qed.

(** An e-mail that is present is a fixed point. *)
Lemma clean_email_fixed c e : clean_email c = Str e -> clean_email (Str e) = Str e.
Proof.
  unfold clean_email, replace_empty. case_bool_decide as Hne; [discriminate|].
  intros [= <-]. simpl.
  rewrite (str_strip_shape (astype_str c)) by (symmetry; apply space_shape_lower).
  rewrite str_lower_idem. by rewrite bool_decide_eq_false_2.
Qed.

Lemma infer_us_prefix_plus p :
  startswith "+" p = true -> infer_us_prefix p = p.
Proof.
  intros Hp. unfold infer_us_prefix. rewrite Hp.
  by rewrite andb_false_r.
Qed.

Lemma infer_us_prefix_cases d :
  infer_us_prefix d = d \/ startswith "+" (infer_us_prefix d) = true.
Proof.
  unfold infer_us_prefix.
  destruct (negb (bool_decide (d = "")) && negb (startswith "+" d)); [|by left].
  destruct (bool_decide (String.length d = 11) && startswith "1" d);
    [right; reflexivity|].
  destruct (bool_decide (String.length d = 10)); [right; reflexivity|by left].
Qed.

Lemma infer_us_prefix_idem d : infer_us_prefix (infer_us_prefix d) = infer_us_prefix d.
Proof.
  destruct (infer_us_prefix_cases d) as [Hd|Hd].
  - by rewrite !Hd.
  - by apply infer_us_prefix_plus.
Qed.

Lemma infer_us_prefix_keep d :
  forallb_string digit_or_plus d = true ->
  forallb_string digit_or_plus (infer_us_prefix d) = true.
Proof.
  intros Hd. unfold infer_us_prefix.
  destruct (negb (bool_decide (d = "")) && negb (startswith "+" d)); [|exact Hd].
  destruct (bool_decide (String.length d = 11) && startswith "1" d); [exact Hd|].
  destruct (bool_decide (String.length d = 10)); exact Hd.
Qed.

Lemma str_rstrip_digits p :
  forallb_string digit_or_plus p = true -> str_rstrip p = p.
Proof.
  induction p as [|c t IH]; simpl; [reflexivity|].
  intros [Hc Ht]%andb_true_iff. rewrite (IH Ht).
  destruct t; [|reflexivity]. by rewrite (digit_or_plus_not_space _ Hc).
Qed.

Lemma str_strip_digits p :
  forallb_string digit_or_plus p = true -> str_strip p = p.
Proof.
  intros Hp. apply str_strip_fixed; [|by apply str_rstrip_digits].
  destruct p as [|c t]; [reflexivity|]. apply str_lstrip_fixed.
  simpl in Hp. apply andb_true_iff in Hp as [Hc _].
  by apply digit_or_plus_not_space.
Qed.

Lemma str_lower_digits p :
  forallb_string digit_or_plus p = true -> str_lower p = p.
Proof.
  unfold str_lower. induction p as [|c t IH]; simpl; [reflexivity|].
  intros [Hc Ht]%andb_true_iff.
  by rewrite (digit_or_plus_tolower _ Hc), (IH Ht).
Qed.

Lemma digits_not_missing p :
  p <> "" -> forallb_string digit_or_plus p = true -> is_missing p = false.
Proof.
  intros Hne Hp. unfold is_missing.
  rewrite (str_strip_digits _ Hp), (str_lower_digits _ Hp).
  rewrite bool_decide_eq_false_2 by exact Hne. simpl.
  apply bool_decide_eq_false. unfold missing_sentinels.
  intros Hin. repeat (apply elem_of_cons in Hin as [->|Hin]; [discriminate Hp|]).
  by apply elem_of_nil in Hin.
Qed.

(** Phone canonicalization is a fixed point on its own result. *)
Lemma normalize_phone_idem x : normalize_phone (normalize_phone x) = normalize_phone x.
Proof.
  unfold normalize_phone at 2 3.
  destruct (is_missing x); [reflexivity|].
  set (p := infer_us_prefix (strip_non_digits x)).
  assert (Hp : forallb_string digit_or_plus p = true).
  { apply infer_us_prefix_keep, filter_string_forallb. }
  destruct (decide (p = "")) as [->|Hne]; [reflexivity|].
  unfold normalize_phone. rewrite (digits_not_missing _ Hne Hp).
  unfold strip_non_digits at 1. rewrite (filter_string_id _ _ Hp).
  apply infer_us_prefix_idem.
Qed.

Lemma clean_phone_idem c : clean_phone (clean_phone c) = clean_phone c.
Proof.
  unfold clean_phone at 2 3. unfold replace_empty.
  case_bool_decide as Hp; [reflexivity|].
  unfold clean_phone, replace_empty. simpl.
  rewrite normalize_phone_idem. by rewrite bool_decide_eq_false_2.
Qed.

(** Country canonicalization is a fixed point on its own result. *)
Lemma normalize_country_idem s : normalize_country (normalize_country s) = normalize_country s.
Proof.
  unfold normalize_country at 2 3.
  case_bool_decide as Hs; [reflexivity|].
  destruct (dict_get (str_lower (str_strip s)) country_mapping) as [label|] eqn:Hget.
  - unfold country_mapping in Hget. simpl in Hget.
    repeat (case_bool_decide; [injection Hget as <-; reflexivity|]).
    discriminate.
  - unfold normalize_country. case_bool_decide as Ht; [by symmetry|].
    rewrite (str_strip_shape s) by (symmetry; apply space_shape_title).
    unfold str_title at 1. rewrite str_lower_title, Hget.
    apply title_from_idem.
Qed.

Lemma apply_normalize_country_fixed c v :
  apply_normalize_country c = Ok v -> apply_normalize_country v = Ok v.
Proof.
  destruct c as [s|z|]; simpl; [| |discriminate].
  - intros [= <-]. simpl. by rewrite normalize_country_idem.
  - case_bool_decide; [|discriminate]. intros [= <-]. reflexivity.
Qed.

(** Identifier coercion is a fixed point on its own result. *)
Lemma astype_Int64_fixed c v :
  astype_Int64 (to_numeric c) = Ok v -> astype_Int64 (to_numeric v) = Ok v.
Proof.
  destruct (to_numeric c) as [m e| |]; simpl; [|discriminate|].
  - destruct (integral_value m e) as [z|]; [|discriminate].
    destruct (in_int64 z) eqn:Hz; [|discriminate].
    intros [= <-]. simpl. unfold integral_value. simpl.
    rewrite Z.mul_1_r, Hz. reflexivity.
  - intros [= <-]. reflexivity.
Qed.

Lemma clean_row_fixed r r' :
  clean_row r = Ok r' -> Email r' <> NA -> clean_row r' = Ok r'.
Proof.
  unfold clean_row.
  destruct (astype_Int64 (to_numeric (CompanyID r))) as [id|] eqn:Hid; [|discriminate].
  destruct (apply_normalize_country (Country r)) as [country|] eqn:Hc; [|discriminate].
  cbn. intros [= <-]. simpl. intros Hemail.
  rewrite (astype_Int64_fixed _ _ Hid), (apply_normalize_country_fixed _ _ Hc). cbn.
  rewrite !clean_text_idem, clean_phone_idem.
  destruct (clean_email (Email r)) as [e|z|] eqn:He.
  - by rewrite (clean_email_fixed _ _ He).
  - unfold clean_email, replace_empty in He. by case_bool_decide.
  - contradiction.
Qed.

Lemma standardize_fields_fixed (out : Frame) :
  Forall (fun r => clean_row r = Ok r) out -> standardize_fields out = Ok out.
Proof.
  intros H. apply standardize_fields_rows.
  induction H; constructor; assumption.
Qed.

(** C8, as the code has it.  When [clean_dataframe] returns a frame in which
    every row has an e-mail, running it again on that frame returns the same
    frame: the column statements leave every row as it is and
    [drop_duplicates] removes nothing. *)
Theorem clean_dataframe_idempotent (df out : Frame) :
  clean_dataframe df = Ok out ->
  Forall (fun r => Email r <> NA) out ->
  standardize_fields out = Ok out
  /\ drop_duplicates out = out
  /\ clean_dataframe out = Ok out.
Proof.
  unfold clean_dataframe at 1. intros H Hemail.
  destruct (standardize_fields df) as [t|e] eqn:Ht; [|discriminate].
  cbn in H. injection H as <-.
  assert (Hrows : Forall (fun r => clean_row r = Ok r) (drop_duplicates t)).
  { apply Forall_forall. intros r Hr.
    rewrite Forall_forall in Hemail. pose proof (Hemail r Hr) as He.
    assert (r ∈ t) as Hin.
    { eapply elem_of_sublist; [exact Hr|apply select_sublist]. }
    apply standardize_fields_rows in Ht.
    apply list_elem_of_lookup in Hin as [i Hi].
    destruct (Forall2_lookup_r _ _ _ _ _ Ht Hi) as (r0 & _ & Hclean).
    by apply (clean_row_fixed r0). }
  assert (Hfix : standardize_fields (drop_duplicates t) = Ok (drop_duplicates t))
    by (apply standardize_fields_fixed, Hrows).
  assert (Hdd : drop_duplicates (drop_duplicates t) = drop_duplicates t).
  { apply (kept_from_id _ ∅); [apply (kept_from_NoDup t ∅)|].
    intros r _. apply not_elem_of_empty. }
  split; [exact Hfix|]. split; [exact Hdd|].
  unfold clean_dataframe. rewrite Hfix. cbn. by rewrite Hdd.
Qed.

Lemma clean_dataframe_idempotent_witness :
  standardize_fields sample_clean_with_email = Ok sample_clean_with_email
  /\ drop_duplicates sample_clean_with_email = sample_clean_with_email
  /\ clean_dataframe sample_clean_with_email = Ok sample_clean_with_email.
Proof.
  apply (clean_dataframe_idempotent (DataFrame sample_rows_with_email)).
  - vm_compute. reflexivity.
  - refine (bool_decide_unpack _ _); vm_compute; exact I.
Defined.

(** C8 as stated fails on a missing e-mail: the row of [sample_clean] without
    e-mail is a result of the pipeline, and the second run reads its missing
    e-mail as the text ["<NA>"] and stores ["<na>"]. *)
Lemma clean_dataframe_not_idempotent :
  clean_dataframe (DataFrame sample_rows) = Ok sample_clean
  /\ clean_dataframe sample_clean
     = Ok [mkRow (Int 1) (Str "Acme Corp") (Str "Tech") (Str "a@x.com")
                 (Str "+15551234567") (Str "United States");
           mkRow NA (Str "Bolt") (Str "Tools") (Str "<na>") NA (Str "Brazil")]
  /\ clean_dataframe sample_clean <> Ok sample_clean.
Proof. repeat split; by vm_compute. Qed.

(** * Further properties of the code *)

(** ** normalize_phone *)

(** X1.  Whatever the text, [normalize_phone] returns digits and ["+"] signs
    only. *)
Theorem normalize_phone_alphabet (raw : string) :
  forallb_string digit_or_plus (normalize_phone raw) = true.
Proof.
  unfold normalize_phone. destruct (is_missing raw); [reflexivity|].
  apply infer_us_prefix_keep, filter_string_forallb.
Qed.

Lemma infer_us_prefix_empty d : infer_us_prefix d = "" -> d = "".
Proof.
  destruct (infer_us_prefix_cases d) as [Hd|Hd]; [congruence|].
  intros He. rewrite He in Hd. discriminate.
Qed.

(** X2.  A text that is no missing-value sentinel is never reordered or
    shortened beyond the stripping: the result is the stripped text, or the
    stripped text behind ["+"] or ["+1"]; a stripped text that starts with
    ["+"] is returned as it is, and a prefix is only ever given to a
    stripped text of ten or eleven characters. *)
Theorem normalize_phone_only_prefixes (raw : string) :
  is_missing raw = false ->
  let digits := strip_non_digits raw in
  (normalize_phone raw = digits
   \/ normalize_phone raw = "+" +:+ digits
   \/ normalize_phone raw = "+1" +:+ digits)
  /\ (startswith "+" digits = true -> normalize_phone raw = digits)
  /\ (normalize_phone raw <> digits ->
      String.length digits = 10 \/ String.length digits = 11).
Proof.
  intros Hm digits. unfold normalize_phone. rewrite Hm. fold digits.
  split; [|split].
  - unfold infer_us_prefix.
    destruct (negb (bool_decide (digits = "")) && negb (startswith "+" digits));
      [|by left].
    destruct (bool_decide (String.length digits = 11) && startswith "1" digits);
      [right; by left|].
    destruct (bool_decide (String.length digits = 10)); [right; by right|by left].
  - apply infer_us_prefix_plus.
  - unfold infer_us_prefix.
    destruct (negb (bool_decide (digits = "")) && negb (startswith "+" digits));
      [|congruence].
    case_bool_decide as H11; [intros _; by right|]. simpl.
    case_bool_decide as H10; [intros _; by left|congruence].
Qed.

Lemma normalize_phone_only_prefixes_witness :
  normalize_phone "+44 (0)20 7946-0958" = "+4402079460958".
Proof.
  refine (proj1 (proj2 (normalize_phone_only_prefixes "+44 (0)20 7946-0958" _)) _);
    vm_compute; reflexivity.
Defined.

(** X3.  The result is empty, and the frame then stores a missing phone,
    exactly when the text is empty or a sentinel, or holds no digit and no
    ["+"] at all. *)
Theorem normalize_phone_empty_iff (raw : string) :
  normalize_phone raw = "" <->
  is_missing raw = true \/ strip_non_digits raw = "".
Proof.
  unfold normalize_phone. split.
  - destruct (is_missing raw); [by left|].
    intros H. right. by apply infer_us_prefix_empty.
  - intros [Hm|Hd]; [by rewrite Hm|].
    destruct (is_missing raw); [reflexivity|]. by rewrite Hd.
Qed.

(** ** normalize_country *)

Lemma toupper_tolower c : toupper (tolower c) = toupper c.
Proof. ascii_cases c. Qed.

Lemma title_from_lower s : forall p, title_from p (str_lower s) = title_from p s.
Proof.
  unfold str_lower. induction s as [|c t IH]; intros p; simpl; [reflexivity|].
  rewrite iscased_tolower, IH.
  destruct p; by rewrite ?tolower_tolower, ?toupper_tolower.
Qed.

Lemma normalize_country_unfold raw :
  normalize_country raw =
  match dict_get (str_lower (str_strip raw)) country_mapping with
  | Some label => label
  | None => str_title (str_strip raw)
  end.
Proof.
  unfold normalize_country. case_bool_decide as Hraw; [|reflexivity].
  subst raw. reflexivity.
Qed.

(** X4.  [normalize_country] does not see letter case or surrounding white
    space: two texts that agree once stripped and lowered get the same
    result. *)
Theorem normalize_country_case_insensitive (a b : string) :
  str_lower (str_strip a) = str_lower (str_strip b) ->
  normalize_country a = normalize_country b.
Proof.
  intros Hab. rewrite !normalize_country_unfold, Hab.
  destruct (dict_get _ country_mapping); [reflexivity|].
  unfold str_title.
  rewrite <- (title_from_lower (str_strip a)), <- (title_from_lower (str_strip b)).
  by rewrite Hab.
Qed.

Lemma normalize_country_case_insensitive_witness :
  normalize_country "  pErU" = normalize_country "PERU ".
Proof.
  apply normalize_country_case_insensitive. vm_compute. reflexivity.
Defined.

Lemma normalize_country_fixed_points raw :
  str_strip (normalize_country raw) = normalize_country raw
  /\ str_title (normalize_country raw) = normalize_country raw.
Proof.
  rewrite normalize_country_unfold.
  destruct (dict_get (str_lower (str_strip raw)) country_mapping) as [label|] eqn:Hget.
  - unfold country_mapping in Hget. simpl in Hget.
    repeat (case_bool_decide; [injection Hget as <-; by vm_compute|]).
    discriminate.
  - split.
    + apply (str_strip_shape raw). symmetry. apply space_shape_title.
    + apply title_from_idem.
Qed.

(** X5.  The result of [normalize_country] is always in normal form: it has
    no white space at either end and title-casing leaves it unchanged. *)
Theorem normalize_country_normal_form (raw : string) :
  str_strip (normalize_country raw) = normalize_country raw
  /\ str_title (normalize_country raw) = normalize_country raw.
Proof.
  rewrite normalize_country_unfold.
  destruct (dict_get (str_lower (str_strip raw)) country_mapping) as [label|] eqn:Hget.
  - assert (Hin : label ∈ map snd country_mapping).
    { clear -Hget. induction country_mapping as [|[k v] rest IH]; [discriminate|].
      simpl in Hget. case_bool_decide; [injection Hget as ->; by left|].
      right. by apply IH. }
    unfold country_mapping in Hin. simpl in Hin.
    repeat (apply elem_of_cons in Hin as [->|Hin]; [by vm_compute|]).
    by apply elem_of_nil in Hin.
  - split.
    + apply (str_strip_shape raw). symmetry. apply space_shape_title.
    + apply title_from_idem.
Qed.

(** ** parse_company_table *)

Lemma str_lstrip_append x y :
  x <> "" -> str_lstrip x = x -> str_lstrip (x +:+ y) = x +:+ y.
Proof.
  destruct x as [|c t]; [congruence|]. intros _ Hx.
  apply str_lstrip_fixed in Hx. simpl. by rewrite Hx.
Qed.

Lemma str_rstrip_append x y :
  y <> "" -> str_rstrip y = y -> str_rstrip (x +:+ y) = x +:+ y.
Proof.
  intros Hne Hy. induction x as [|c t IH]; [exact Hy|].
  change (String c t +:+ y) with (String c (t +:+ y)).
  simpl. rewrite IH. destruct (t +:+ y) eqn:E; [|reflexivity].
  destruct t; [change (y = "") in E; contradiction|discriminate].
Qed.

Lemma append_empty x y : x +:+ y = "" -> x = "" /\ y = "".
Proof. destruct x; simpl; [tauto|discriminate]. Qed.

(** Joining stripped non-empty texts gives a stripped text. *)
Lemma concat_stripped pieces :
  Forall (fun t => t <> "" /\ str_lstrip t = t /\ str_rstrip t = t) pieces ->
  (pieces <> [] -> String.concat "" pieces <> "")
  /\ str_lstrip (String.concat "" pieces) = String.concat "" pieces
  /\ str_rstrip (String.concat "" pieces) = String.concat "" pieces.
Proof.
  induction 1 as [|x rest (Hne & Hl & Hr) _ (IHne & IHl & IHr)]; [by split|].
  destruct rest as [|y rest'].
  { simpl. by split. }
  change (String.concat "" (x :: y :: rest'))
    with (x +:+ String.concat "" (y :: rest')).
  assert (Hrest : String.concat "" (y :: rest') <> "") by (by apply IHne).
  split; [|split].
  - intros _ [? _]%append_empty. contradiction.
  - by apply str_lstrip_append.
  - by apply str_rstrip_append.
Qed.

Lemma get_text_stripped n : stripped (get_text n).
Proof.
  unfold stripped, get_text.
  destruct (concat_stripped
    (List.filter (fun t => negb (bool_decide (t = ""))) (map str_strip (all_strings n))))
    as (_ & Hl & Hr).
  - apply List.Forall_forall. intros t [Hin Hne]%List.filter_In.
    apply List.in_map_iff in Hin as (u & <- & _).
    split; [|split].
    + intros He. rewrite He in Hne. discriminate.
    + apply str_strip_lstrip.
    + apply str_strip_rstrip.
  - by apply str_strip_fixed.
Qed.

Lemma nth_stripped cols i : Forall stripped cols -> stripped (nth i cols "").
Proof.
  intros H. revert i. induction H as [|c cols Hc _ IH]; intros [|i]; simpl;
    try reflexivity; [exact Hc|apply IH].
Qed.

Lemma extract_rows_stripped trs : forall rows,
  Forall (fun d => Forall stripped (raw_fields d)) rows ->
  Forall (fun d => Forall stripped (raw_fields d)) (extract_rows trs rows).
Proof.
  induction trs as [|tr rest IH]; intros rows Hrows; simpl; [exact Hrows|].
  case_bool_decide; [by apply IH|].
  apply IH, Forall_app. split; [exact Hrows|].
  assert (Hcols : Forall stripped (map get_text (find_all "td" None tr))).
  { apply List.Forall_forall. intros t (u & <- & _)%List.in_map_iff.
    apply get_text_stripped. }
  repeat constructor; by apply nth_stripped.
Qed.

(** X6.  No text of a scraped row has white space at either end, however the
    cell is marked up: [get_text(strip=True)] strips every piece of text
    before joining. *)
Theorem parsed_fields_are_stripped (soup : node) (d : Raw.t) :
  d ∈ page_rows soup ->
  Forall stripped (raw_fields d).
Proof.
  intros Hd.
  assert (H : Forall (fun d => Forall stripped (raw_fields d)) (page_rows soup)).
  { unfold page_rows, parse_company_table.
    destruct (find "table" (Some "company-table") soup) as [table|]; [|constructor].
    destruct (find "tbody" None table) as [tbody|]; [|constructor].
    simpl. apply extract_rows_stripped. constructor. }
  rewrite Forall_forall in H. by apply H.
Qed.

Lemma parsed_fields_are_stripped_witness :
  Forall stripped
    (raw_fields (Raw.mk "1" "acme" "tech" "A@x.com" "(555) 123-4567" "usa")).
Proof.
  apply (parsed_fields_are_stripped page1).
  apply list_elem_of_In. vm_compute. left. reflexivity.
Defined.

Lemma extract_rows_length trs : forall rows,
  length (extract_rows trs rows)
  = length rows
    + length (List.filter (fun tr => bool_decide (length (find_all "td" None tr) = 6)) trs).
Proof.
  induction trs as [|tr rest IH]; intros rows; simpl; [lia|].
  rewrite length_map.
  destruct (decide (length (find_all "td" None tr) = 6)) as [H6|H6].
  - rewrite bool_decide_eq_false_2 by tauto.
    rewrite (bool_decide_eq_true_2 _ H6), IH, length_app. simpl. lia.
  - rewrite (bool_decide_eq_true_2 _ H6), (bool_decide_eq_false_2 _ H6). apply IH.
Qed.

(** X7.  A page gives exactly one record per body row with six [td] cells,
    so never more records than the body has rows; a page without the table
    or without its body gives none. *)
Theorem page_rows_count (soup : node) :
  (forall table tbody,
     find "table" (Some "company-table") soup = Some table ->
     find "tbody" None table = Some tbody ->
     length (page_rows soup)
     = length (List.filter (fun tr => bool_decide (length (find_all "td" None tr) = 6))
                 (find_all "tr" None tbody))
     /\ length (page_rows soup) <= length (find_all "tr" None tbody))
  /\ (find "table" (Some "company-table") soup = None -> page_rows soup = [])
  /\ (forall table,
        find "table" (Some "company-table") soup = Some table ->
        find "tbody" None table = None -> page_rows soup = []).
Proof.
  split; [|split].
  - intros table tbody Ht Hb.
    rewrite (parse_company_table_body _ _ _ Ht Hb), extract_rows_length. simpl.
    split; [reflexivity|]. apply List.filter_length_le.
  - intros Ht. unfold page_rows, parse_company_table. by rewrite Ht.
  - intros table Ht Hb. unfold page_rows, parse_company_table. by rewrite Ht, Hb.
Qed.

Lemma page_rows_count_witness : page_rows soup_without_tbody = [].
Proof.
  refine (proj2 (proj2 (page_rows_count soup_without_tbody))
            (Tag "table" [("id", "company-table")] [tr6 "1" "a" "b" "c" "d" "e"]) _ _);
    vm_compute; reflexivity.
Defined.

(** ** scrape_demo_site *)

(** X8.  When the links lead from the entry page through distinct readable
    pages and the last one has no link, or a link without target, or a link
    with an empty target, the crawl returns the rows of all these pages in
    page order. *)
Theorem scrape_reaches_last_page (SITE_DIR : string) (parent : string -> string)
    (resolve : string -> string -> string) (site : gmap string file)
    (start_page : string) (pages : list (string * node)) :
  follows parent resolve site (Some (resolve SITE_DIR start_page)) pages None ->
  NoDup (map fst pages) ->
  scrape_demo_site SITE_DIR parent resolve site start_page
  = Some (Ok (DataFrame (chain_rows pages))).
Proof.
  intros Hf Hnd. by apply (scrape_demo_site_follows _ _ _ _ _ _ _ Hf Hnd).
Qed.

Lemma scrape_reaches_last_page_witness :
  scrape_demo_site "/site" demo_parent demo_resolve site_linear "page1.html"
  = Some (Ok (DataFrame
      (chain_rows [("/site/page1.html", page1); ("/site/page2.html", page_last)]))).
Proof.
  apply scrape_reaches_last_page.
  - apply follows_page; [vm_compute; reflexivity|].
    change (follows demo_parent demo_resolve site_linear (Some "/site/page2.html")
              [("/site/page2.html", page_last)] None).
    apply follows_page; [vm_compute; reflexivity|].
    change (follows demo_parent demo_resolve site_linear None [] None).
    apply follows_end.
  - refine (bool_decide_unpack _ _); vm_compute; exact I.
Defined.




Lemma crawl_rows_origin parent resolve (site : gmap string file) fuel :
  forall current (seen : gset string) all_rows rows,
    crawl parent resolve site fuel current seen all_rows = Some (Ok rows) ->
    forall d, d ∈ rows ->
      d ∈ all_rows
      \/ exists p soup, site !! p = Some (Page soup) /\ d ∈ page_rows soup.
Proof.
  induction fuel as [|fuel IH]; intros current seen all_rows rows; [discriminate|].
  simpl. destruct current as [cur|]; [|intros [= <-]; by left].
  destruct (site !! cur) as [f|] eqn:Hcur; [|intros [= <-]; by left].
  case_bool_decide; [intros [= <-]; by left|].
  destruct f as [soup|]; [|discriminate].
  destruct (parse_company_table soup) as [prows next_href] eqn:Hparse.
  intros Hc d Hd. destruct (IH _ _ _ _ Hc d Hd) as [Hin|Hin]; [|by right].
  apply elem_of_app in Hin as [Hin|Hin]; [by left|].
  right. exists cur, soup. split; [exact Hcur|].
  unfold page_rows. by rewrite Hparse.
Qed.

(** X10.  The crawl invents nothing: every row of the frame it returns is a
    row that [parse_company_table] extracts from a readable page of the
    site. *)
Theorem scrape_rows_come_from_pages (SITE_DIR : string) (parent : string -> string)
    (resolve : string -> string -> string) (site : gmap string file)
    (start_page : string) (df : Frame) :
  scrape_demo_site SITE_DIR parent resolve site start_page = Some (Ok df) ->
  exists all_rows,
    df = DataFrame all_rows
    /\ forall d, d ∈ all_rows ->
         exists p soup, site !! p = Some (Page soup) /\ d ∈ page_rows soup.
Proof.
  unfold scrape_demo_site.
  destruct (crawl parent resolve site (S (size site))
              (Some (resolve SITE_DIR start_page)) ∅ []) as [[rows|e]|] eqn:Hc;
    [|discriminate|discriminate].
  intros [= <-]. exists rows. split; [reflexivity|].
  intros d Hd. destruct (crawl_rows_origin _ _ _ _ _ _ _ _ Hc d Hd) as [Hin|Hin];
    [by apply elem_of_nil in Hin|exact Hin].
Qed.

Lemma scrape_rows_come_from_pages_witness :
  exists all_rows,
    DataFrame (chain_rows [("/site/page1.html", page1)]) = DataFrame all_rows
    /\ forall d, d ∈ all_rows ->
         exists p soup, site_missing_second !! p = Some (Page soup) /\ d ∈ page_rows soup.
Proof.
  apply (scrape_rows_come_from_pages "/site" demo_parent demo_resolve
           site_missing_second "page1.html").
  vm_compute. reflexivity.
Defined.

Lemma crawl_follows_unreadable parent resolve (site : gmap string file)
    start pages stop :
  follows parent resolve site start pages stop ->
  forall fuel (seen : gset string) all_rows q,
    stop = Some q ->
    site !! q = Some Unreadable ->
    q ∉ seen ->
    q ∉ map fst pages ->
    (forall p, p ∈ map fst pages -> p ∉ seen) ->
    NoDup (map fst pages) ->
    length pages < fuel ->
    crawl parent resolve site fuel start seen all_rows = Some (Raise OSError).
Proof.
  induction 1 as [stop|cur soup pages stop Hcur _ IH];
    intros fuel seen all_rows q -> Hq Hqs Hqp Hfresh Hnd Hfuel.
  - destruct fuel as [|fuel]; [simpl in Hfuel; lia|].
    simpl. rewrite Hq. by rewrite bool_decide_eq_false_2.
  - destruct fuel as [|fuel]; [simpl in Hfuel; lia|].
    simpl in *. rewrite Hcur.
    rewrite bool_decide_eq_false_2 by (apply Hfresh; by left).
    apply NoDup_cons in Hnd as [Hnotin Hnd].
    unfold page_next in IH.
    destruct (parse_company_table soup) as [rows next_href]. simpl in IH.
    apply (IH fuel _ _ q eq_refl Hq).
    + intros [Hin|Hin]%elem_of_union; [|by apply Hqs].
      apply elem_of_singleton in Hin. subst q. apply Hqp. by left.
    + intros Hin. apply Hqp. by right.
    + intros p Hp [Hin|Hin]%elem_of_union.
      * apply elem_of_singleton in Hin. by subst p.
      * eapply Hfresh; [right; exact Hp|exact Hin].
    + exact Hnd.
    + lia.
Qed.

(** X11.  When the links lead from the entry page through distinct readable
    pages to a path that exists but cannot be read, the crawl raises and the
    rows gathered on the pages before are lost. *)
Theorem scrape_raises_on_unreadable_page (SITE_DIR : string)
    (parent : string -> string) (resolve : string -> string -> string)
    (site : gmap string file) (start_page : string)
    (pages : list (string * node)) (q : string) :
  follows parent resolve site (Some (resolve SITE_DIR start_page)) pages (Some q) ->
  NoDup (map fst pages) ->
  q ∉ map fst pages ->
  site !! q = Some Unreadable ->
  scrape_demo_site SITE_DIR parent resolve site start_page = Some (Raise OSError).
Proof.
  intros Hf Hnd Hq Hun. unfold scrape_demo_site.
  rewrite (crawl_follows_unreadable _ _ _ _ _ _ Hf (S (size site)) ∅ [] q eq_refl Hun);
    [reflexivity|apply not_elem_of_empty|exact Hq| |exact Hnd|].
  - intros p _. apply not_elem_of_empty.
  - pose proof (follows_length _ _ _ _ _ _ Hf Hnd). lia.
Qed.

Lemma scrape_raises_on_unreadable_page_witness :
  scrape_demo_site "/site" demo_parent demo_resolve site_unreadable_second "page1.html"
  = Some (Raise OSError).
Proof.
  apply (scrape_raises_on_unreadable_page "/site" demo_parent demo_resolve
           site_unreadable_second "page1.html"
           [("/site/page1.html", page1)] "/site/page2.html").
  - apply follows_page; [vm_compute; reflexivity|].
    change (follows demo_parent demo_resolve site_unreadable_second
              (Some "/site/page2.html") [] (Some "/site/page2.html")).
    apply follows_end.
  - refine (bool_decide_unpack _ _); vm_compute; exact I.
  - refine (bool_decide_unpack _ _); vm_compute; exact I.
  - vm_compute. reflexivity.
Defined.

(** ** clean_dataframe *)





Lemma digits_value_nonneg ds : forall acc, (0 <= acc)%Z -> (0 <= digits_value acc ds)%Z.
Proof.
  induction ds as [|c t IH]; intros acc Hacc; simpl; [exact Hacc|].
  apply IH. lia.
Qed.

Lemma span_digits s :
  forallb_string isdigit s = true -> span isdigit s = (s, "").
Proof.
  induction s as [|c t IH]; simpl; [reflexivity|].
  intros [Hc Ht]%andb_true_iff. by rewrite Hc, (IH Ht).
Qed.

Lemma isdigit_not_sign c :
  isdigit c = true ->
  isspace_ascii c = false /\ c <> "-"%char /\ c <> "+"%char.
Proof. ascii_cases c; repeat split; discriminate. Qed.

Lemma append_empty_r s : s +:+ "" = s.
Proof.
  induction s as [|c t IH]; [reflexivity|].
  change (String c t +:+ "") with (String c (t +:+ "")). by rewrite IH.
Qed.

Lemma xstrtod_digits s :
  s <> "" -> forallb_string isdigit s = true ->
  xstrtod s = Some (digits_value 0 s, 0%Z).
Proof.
  intros Hne Hd. destruct s as [|c t]; [congruence|].
  pose proof Hd as Hd'. simpl in Hd'. apply andb_true_iff in Hd' as [Hc _].
  destruct (isdigit_not_sign c Hc) as (Hsp & Hm & Hp).
  unfold xstrtod.
  assert (skip isspace_ascii (String c t) = String c t) as ->
    by (simpl; by rewrite Hsp).
  assert (take_sign (String c t) = (false, String c t)) as ->.
  { unfold take_sign. by rewrite !bool_decide_eq_false_2. }
  rewrite (span_digits _ Hd). simpl skip. rewrite append_empty_r.
  rewrite bool_decide_eq_false_2 by discriminate.
  rewrite bool_decide_eq_true_2 by reflexivity. reflexivity.
Qed.

(** X13.  An identifier written as plain decimal digits is read as that
    number: when the digits denote a value below 2^53 (so that it is exact
    also where the column is held as floats) the cleaned cell is this
    integer. *)
Theorem plain_identifier_is_kept (s : string) :
  s <> "" ->
  forallb_string isdigit s = true ->
  (digits_value 0 s < 2 ^ 53)%Z ->
  astype_Int64 (to_numeric (Str s)) = Ok (Int (digits_value 0 s))
  /\ coerces s = true.
Proof.
  intros Hne Hd Hlt.
  assert (H : astype_Int64 (to_numeric (Str s)) = Ok (Int (digits_value 0 s))).
  { simpl. rewrite (xstrtod_digits s Hne Hd). simpl.
    unfold integral_value. simpl. rewrite Z.mul_1_r.
    pose proof (digits_value_nonneg s 0 ltac:(lia)) as Hge.
    assert (in_int64 (digits_value 0 s) = true) as ->; [|reflexivity].
    unfold in_int64. apply andb_true_iff. split; [apply Z.leb_le|apply Z.ltb_lt]; lia. }
  split; [exact H|]. unfold coerces. by rewrite H.
Qed.

Lemma plain_identifier_is_kept_witness :
  astype_Int64 (to_numeric (Str "00420")) = Ok (Int 420).
Proof.
  refine (proj1 (plain_identifier_is_kept "00420" _ _ _));
    [discriminate|vm_compute; reflexivity|vm_compute; reflexivity].
Defined.

Lemma clean_row_shape r0 r : clean_row r0 = Ok r -> cleaned_row r.
Proof.
  unfold clean_row.
  destruct (astype_Int64 (to_numeric (CompanyID r0))) as [id|] eqn:Hid; [|discriminate].
  destruct (apply_normalize_country (Country r0)) as [country|] eqn:Hc; [|discriminate].
  cbn. intros [= <-]. unfold cleaned_row. simpl.
  assert (Htext : forall c, exists s, clean_text c = Str s /\ stripped s /\ str_title s = s).
  { intros c. eexists. split; [reflexivity|]. split.
    - apply (str_strip_shape (astype_str c)). symmetry. apply space_shape_title.
    - apply title_from_idem. }
  repeat split; try apply Htext.
  - destruct (to_numeric (CompanyID r0)) as [m e| |]; simpl in Hid; [|discriminate|].
    + destruct (integral_value m e) as [z|]; [|discriminate].
      destruct (in_int64 z) eqn:Hz; [|discriminate].
      injection Hid as <-. right. by exists z.
    + injection Hid as <-. by left.
  - unfold clean_email, replace_empty. case_bool_decide as He; [by left|].
    right. eexists. split; [reflexivity|]. split; [exact He|]. split.
    + apply (str_strip_shape (astype_str (Email r0))). symmetry.
      apply space_shape_lower.
    + apply str_lower_idem.
  - unfold clean_phone, replace_empty. case_bool_decide as Hp; [by left|].
    right. eexists. split; [reflexivity|]. split; [exact Hp|].
    unfold normalize_phone. destruct (is_missing _); [reflexivity|].
    apply infer_us_prefix_keep, filter_string_forallb.
  - destruct (Country r0) as [s|z|]; simpl in Hc; [| |discriminate].
    + injection Hc as <-. eexists. split; [reflexivity|].
      apply normalize_country_fixed_points.
    + case_bool_decide; [|discriminate]. injection Hc as <-.
      exists "". by repeat split.
Qed.

(** X14.  Every row of a frame returned by [clean_dataframe] has the shape
    of a cleaned row: the identifier is missing or an integer in the 64-bit
    range, name and category are stripped title-cased texts, the e-mail is
    missing or a non-empty stripped lower-case text, the phone is missing or
    a non-empty text of digits and ["+"], and the country is a stripped
    title-cased text. *)
Theorem clean_dataframe_rows_are_cleaned (df out : Frame) :
  clean_dataframe df = Ok out ->
  Forall cleaned_row out.
Proof.
  unfold clean_dataframe. intros H.
  destruct (standardize_fields df) as [t|e] eqn:Ht; [|discriminate].
  cbn in H. injection H as <-.
  apply Forall_forall. intros r Hr.
  assert (r ∈ t) as Hin by (eapply elem_of_sublist; [exact Hr|apply select_sublist]).
  apply standardize_fields_rows in Ht.
  apply list_elem_of_lookup in Hin as [i Hi].
  destruct (Forall2_lookup_r _ _ _ _ _ Ht Hi) as (r0 & _ & Hclean).
  by apply (clean_row_shape r0).
Qed.

Lemma clean_dataframe_rows_are_cleaned_witness : Forall cleaned_row sample_clean.
Proof.
  apply (clean_dataframe_rows_are_cleaned (DataFrame sample_rows)).
  vm_compute. reflexivity.
Defined.

(** X15.  Two scraped rows whose identifiers are read as the same value and
    whose e-mails agree once stripped and lowered are one record: only the
    first is kept, whatever their other fields are. *)
Theorem duplicate_email_ignores_case (d1 d2 : Raw.t) (id : cell) :
  astype_Int64 (to_numeric (Str (Raw.CompanyID d1))) = Ok id ->
  astype_Int64 (to_numeric (Str (Raw.CompanyID d2))) = Ok id ->
  str_lower (str_strip (Raw.Email d1)) = str_lower (str_strip (Raw.Email d2)) ->
  exists r1,
    standardize_fields (DataFrame [d1]) = Ok [r1]
    /\ clean_dataframe (DataFrame [d1; d2]) = Ok [r1].
Proof.
  intros H1 H2 He.
  set (row := fun (d : Raw.t) =>
    mkRow id (clean_text (Str (Raw.CompanyName d))) (clean_text (Str (Raw.Category d)))
          (clean_email (Str (Raw.Email d))) (clean_phone (Str (Raw.Phone d)))
          (Str (normalize_country (Raw.Country d)))).
  assert (Hrow1 : clean_row (mkRow (Str (Raw.CompanyID d1)) (Str (Raw.CompanyName d1))
                    (Str (Raw.Category d1)) (Str (Raw.Email d1))
                    (Str (Raw.Phone d1)) (Str (Raw.Country d1))) = Ok (row d1)).
  { unfold clean_row. cbn beta iota delta [CompanyID Country]. by rewrite H1. }
  assert (Hrow2 : clean_row (mkRow (Str (Raw.CompanyID d2)) (Str (Raw.CompanyName d2))
                    (Str (Raw.Category d2)) (Str (Raw.Email d2))
                    (Str (Raw.Phone d2)) (Str (Raw.Country d2))) = Ok (row d2)).
  { unfold clean_row. cbn beta iota delta [CompanyID Country]. by rewrite H2. }
  exists (row d1). split.
  - apply standardize_fields_rows. repeat constructor. exact Hrow1.
  - assert (Ht : standardize_fields (DataFrame [d1; d2]) = Ok [row d1; row d2]).
    { apply standardize_fields_rows. repeat constructor; assumption. }
    unfold clean_dataframe. rewrite Ht.
    change (Ok (kept_from ∅ [row d1; row d2]) = Ok [row d1]). f_equal.
    assert (Hkey : subset_key (row d2) = subset_key (row d1)).
    { unfold subset_key, row, clean_email. simpl. by rewrite He. }
    rewrite kept_from_cons, bool_decide_eq_false_2 by apply not_elem_of_empty.
    rewrite kept_from_cons, bool_decide_eq_true_2; [reflexivity|].
    rewrite Hkey. apply elem_of_union. left. by apply elem_of_singleton.
Qed.

Lemma duplicate_email_ignores_case_witness :
  exists r1,
    standardize_fields
      (DataFrame [Raw.mk "7" "acme" "tech" "Sales@Acme.com" "" "usa"]) = Ok [r1]
    /\ clean_dataframe
         (DataFrame [Raw.mk "7" "acme" "tech" "Sales@Acme.com" "" "usa";
                     Raw.mk "7.0" "other" "misc" " sales@acme.COM " "12345" "uk"])
       = Ok [r1].
Proof.
  apply (duplicate_email_ignores_case _ _ (Int 7)); vm_compute; reflexivity.
Defined.

Lemma kept_from_filter df : forall (s1 s2 : gset (cell * cell)),
  kept_from (s1 ∪ s2) df
  = List.filter (fun r => negb (bool_decide (subset_key r ∈ s1))) (kept_from s2 df).
Proof.
  induction df as [|r df IH]; intros s1 s2; [reflexivity|].
  rewrite !kept_from_cons.
  assert (Hset : {[subset_key r]} ∪ (s1 ∪ s2) = s1 ∪ ({[subset_key r]} ∪ s2))
    by (apply set_eq; intros x; rewrite !elem_of_union; tauto).
  rewrite Hset, IH.
  destruct (decide (subset_key r ∈ s2)) as [H2|H2].
  - rewrite (bool_decide_eq_true_2 (subset_key r ∈ s2) H2).
    rewrite bool_decide_eq_true_2; [reflexivity|]. apply elem_of_union. by right.
  - rewrite (bool_decide_eq_false_2 (subset_key r ∈ s2) H2). simpl.
    destruct (decide (subset_key r ∈ s1)) as [H1|H1].
    + rewrite (bool_decide_eq_true_2 (subset_key r ∈ s1) H1). simpl.
      rewrite bool_decide_eq_true_2; [reflexivity|]. apply elem_of_union. by left.
    + rewrite (bool_decide_eq_false_2 (subset_key r ∈ s1) H1). simpl.
      rewrite bool_decide_eq_false_2; [reflexivity|].
      intros [?|?]%elem_of_union; contradiction.
Qed.

Lemma kept_from_app a : forall (s : gset (cell * cell)) b,
  kept_from s (a ++ b)
  = kept_from s a ++ kept_from (list_to_set (map subset_key a) ∪ s) b.
Proof.
  induction a as [|r a IH]; intros s b.
  - simpl. by rewrite union_empty_l_L.
  - change ((r :: a) ++ b) with (r :: (a ++ b)).
    rewrite !kept_from_cons, IH.
    assert (Hset : list_to_set (map subset_key a) ∪ ({[subset_key r]} ∪ s)
                   = list_to_set (map subset_key (r :: a)) ∪ s)
      by (simpl; apply set_eq; intros x; rewrite !elem_of_union; tauto).
    rewrite Hset. by case_bool_decide.
Qed.

(** X16.  Rows that come later never displace rows that came before: the
    duplicates dropped from a frame followed by another are those dropped
    from the first, then those dropped from the second together with every
    row of the second whose key occurs in the first. *)
Theorem drop_duplicates_app (a b : Frame) :
  drop_duplicates (a ++ b)
  = drop_duplicates a
    ++ List.filter (fun r => negb (bool_decide (subset_key r ∈ map subset_key a)))
         (drop_duplicates b).
Proof.
  change (kept_from ∅ (a ++ b)
          = kept_from ∅ a
            ++ List.filter
                 (fun r => negb (bool_decide (subset_key r ∈ map subset_key a)))
                 (kept_from ∅ b)).
  rewrite kept_from_app, kept_from_filter. f_equal.
  apply List.filter_ext. intros r. f_equal.
  apply bool_decide_ext. apply elem_of_list_to_set.
Qed.

(** ** main *)

(** X17.  [main] cleans what the crawl returns and nothing else: when the
    links lead from [page1.html] through distinct readable pages to a last
    page without link or to a missing path, and every identifier on these
    pages goes through the cast, the frame handed to [save_outputs] is the
    cleaned rows of these pages, as many as were scraped, with the
    duplicates dropped; and when the crawl raises, [main] raises the same
    exception before anything is cleaned or saved. *)
Theorem main_cleans_the_chain (SITE_DIR : string) (parent : string -> string)
    (resolve : string -> string -> string) (site : gmap string file) :
  (forall pages stop,
     follows parent resolve site (Some (resolve SITE_DIR "page1.html")) pages stop ->
     NoDup (map fst pages) ->
     match stop with
     | None => True
     | Some q => site !! q = None
     end ->
     Forall (fun d => coerces (Raw.CompanyID d) = true) (chain_rows pages) ->
     exists t,
       standardize_fields (DataFrame (chain_rows pages)) = Ok t
       /\ length t = length (chain_rows pages)
       /\ main_clean SITE_DIR parent resolve site = Some (Ok (drop_duplicates t)))
  /\ (forall e,
        scrape_demo_site SITE_DIR parent resolve site "page1.html" = Some (Raise e) ->
        main_clean SITE_DIR parent resolve site = Some (Raise e)).
Proof.
  split.
  - intros pages stop Hf Hnd Hstop Hids.
    destruct (standardize_fields_returns _ Hids) as [t Ht]. exists t.
    split; [exact Ht|]. split.
    + pose proof Ht as HF. apply standardize_fields_rows, Forall2_length in HF.
      unfold DataFrame in HF. rewrite length_map in HF. lia.
    + unfold main_clean.
      rewrite (scrape_demo_site_follows _ _ _ _ _ _ _ Hf Hnd).
      * unfold clean_dataframe. by rewrite Ht.
      * destruct stop; [by left|exact I].
  - intros e He. unfold main_clean. by rewrite He.
Qed.

Lemma main_cleans_the_chain_witness :
  exists t,
    standardize_fields
      (DataFrame (chain_rows [("/site/page1.html", page1); ("/site/page2.html", page_last)]))
    = Ok t
    /\ length t
       = length (chain_rows [("/site/page1.html", page1); ("/site/page2.html", page_last)])
    /\ main_clean "/site" demo_parent demo_resolve site_linear
       = Some (Ok (drop_duplicates t)).
Proof.
  apply (proj1 (main_cleans_the_chain "/site" demo_parent demo_resolve site_linear)
           [("/site/page1.html", page1); ("/site/page2.html", page_last)] None).
  - apply follows_page; [vm_compute; reflexivity|].
    change (follows demo_parent demo_resolve site_linear (Some "/site/page2.html")
              [("/site/page2.html", page_last)] None).
    apply follows_page; [vm_compute; reflexivity|].
    change (follows demo_parent demo_resolve site_linear None [] None).
    apply follows_end.
  - refine (bool_decide_unpack _ _); vm_compute; exact I.
  - exact I.
  - refine (bool_decide_unpack _ _); vm_compute; exact I.
Defined.

Example main_on_site_linear :
  main_clean "/site" demo_parent demo_resolve site_linear
  = Some (Ok [mkRow (Int 1) (Str "Acme") (Str "Tech") (Str "a@x.com")
                    (Str "+15551234567") (Str "United States");
              mkRow (Int 2) (Str "Bolt") (Str "Tools") (Str "b@x.com")
                    (Str "12345") (Str "Brazil")]).
Proof. vm_compute. reflexivity. Qed.
